(** * OpenShift Local extension: start flow and preset/connection binding

    A shallow embedding of [src/crc-start.ts] and of the lifecycle and
    preset-binding part of [src/extension.ts].

    The TypeScript code is asynchronous, throws and catches exceptions,
    returns early from inside [try] blocks and talks to three kinds of
    collaborators: the host (provider, window, logger, telemetry), the
    daemon client ([commander]) and the platform ([fs], [os], [path]).
    It is embedded as follows.

    - Every call to a collaborator appends an [Event] to a chronological
      [trace] kept in the [State].
    - What a collaborator answers is given by a [World]: a record of
      functions from the history of events so far to the answer.  A daemon
      or setup call may resolve or reject; host calls (status updates,
      messages, logging, registration) complete without throwing.
    - Statements live in the monad [M R A] whose completions follow the
      ECMAScript completion records: normal, [return] with a value, [throw]
      with a value.  [try]/[catch]/[finally] are combinators on it.
    - [startCrc] retries itself after a pull secret has been stored; the
      recursion is bounded by a fuel argument and running out of it is the
      distinct completion [OutOfFuel].
    - The single-threaded scheduling is kept: an [await]ed call runs to
      completion in place.  A call whose promise is dropped runs at once up
      to its first [await]; what is left of it is queued as a pending [Task]
      and resumes while its caller is suspended in a later call. *)

From Stdlib Require Import String Ascii List Bool Arith ZArith Lia.
From Stdlib Require Import DecimalString.
Import ListNotations.
Open Scope string_scope.

Set Implicit Arguments.
Set Warnings "-register-all".

(** ** JavaScript values *)

Module Js.

(** The double quote and the line feed, for string literals that hold them. *)
Definition dq : string := String (ascii_of_nat 34) EmptyString.
Definition nl : string := String (ascii_of_nat 10) EmptyString.

(** A thrown value: either a primitive string ([throw 'text']) or an error
    object, of which the code reads [name], [message] and [code].  A field
    is [None] when it is not a string.  No collaborator rejects with [null]
    or [undefined]. *)
Inductive Thrown : Type :=
| ThrownString (s : string)
| ErrorObject (name : option string) (message : option string) (code : option string).

Definition err_message (e : Thrown) : option string :=
  match e with
  | ThrownString _ => None
  | ErrorObject _ m _ => m
  end.

Definition err_name (e : Thrown) : option string :=
  match e with
  | ThrownString _ => None
  | ErrorObject n _ _ => n
  end.

Definition err_code (e : Thrown) : option string :=
  match e with
  | ThrownString _ => None
  | ErrorObject _ _ c => c
  end.

(** [new Error(msg)] and the engine's [TypeError]. *)
Definition Error (msg : string) : Thrown :=
  ErrorObject (Some "Error") (Some msg) None.

Definition TypeError (msg : string) : Thrown :=
  ErrorObject (Some "TypeError") (Some msg) None.

(** String conversion as done by a template literal: a string is itself, an
    error object goes through [Error.prototype.toString]. *)
Definition toString (e : Thrown) : string :=
  match e with
  | ThrownString s => s
  | ErrorObject n m _ =>
      let name := match n with Some x => x | None => "Error" end in
      let msg := match m with Some x => x | None => EmptyString end in
      if name =? EmptyString then msg
      else if msg =? EmptyString then name
      else name ++ ": " ++ msg
  end.

(** [a === 'literal'] for a possibly undefined string. *)
Definition str_is (a : option string) (lit : string) : bool :=
  match a with
  | Some x => x =? lit
  | None => false
  end.

(** The value of a parsed JSON text. Numbers are kept as integers: the code
    looks at a number only for its truthiness. The properties of an object
    are listed in enumeration order. *)
Inductive json : Type :=
| JNull
| JBool (b : bool)
| JNumber (n : Z)
| JString (s : string)
| JArray (items : list json)
| JObject (props : list (string * json)).

(** A JavaScript value read from such a document: [None] is [undefined]. *)
Definition value : Type := option json.

Definition truthy (v : value) : bool :=
  match v with
  | None => false
  | Some JNull => false
  | Some (JBool b) => b
  | Some (JNumber n) => negb (n =? 0)%Z
  | Some (JString s) => negb (s =? EmptyString)
  | Some (JArray _) => true
  | Some (JObject _) => true
  end.

Definition string_of_nat (n : nat) : string :=
  NilZero.string_of_uint (Nat.to_uint n).

Fixpoint index_entries (A : Type) (i : nat) (l : list A) : list (string * A) :=
  match l with
  | [] => []
  | x :: r => (string_of_nat i, x) :: index_entries (S i) r
  end.

Definition chars (s : string) : list json :=
  map (fun c => JString (String c EmptyString)) (list_ascii_of_string s).

(** The own enumerable properties of a value, in enumeration order: the
    properties of an object, the elements of an array, the characters of a
    string; booleans and numbers have none. *)
Definition own_entries (v : json) : list (string * json) :=
  match v with
  | JObject props => props
  | JArray items => index_entries 0 items
  | JString s => index_entries 0 (chars s)
  | _ => []
  end.

(** [Object.keys(v)], also the keys visited by [for (const a in v)]. *)
Definition keys (v : json) : list string := map fst (own_entries v).

Fixpoint lookup (k : string) (l : list (string * json)) : value :=
  match l with
  | [] => None
  | (k', v) :: r => if k =? k' then Some v else lookup k r
  end.

(** [v[k]] and [v.k]: reading a property of [null] or [undefined] throws a
    [TypeError]; otherwise an own property is found or the result is
    [undefined].  The names the code reads ([auths], [auth], [credsStore]
    and own keys) are never inherited ones. *)
Definition get (v : value) (k : string) : Thrown + value :=
  match v with
  | None =>
      inl (TypeError ("Cannot read properties of undefined (reading '" ++ k ++ "')"))
  | Some JNull =>
      inl (TypeError ("Cannot read properties of null (reading '" ++ k ++ "')"))
  | Some j => inr (lookup k (own_entries j))
  end.

End Js.

Import Js.

(** ** Effects, state and the environment *)

(** What is passed to [window.showErrorMessage], [console.error] and
    [logger.error]: a text or a caught value. *)
Inductive Shown : Type :=
| Text (s : string)
| Caught (e : Thrown).

(** A connection registered with the host. *)
Inductive Connection : Type :=
| KubernetesConnection (name apiURL : string)
| ContainerConnection (name type socketPath : string).

(** Calls to collaborators, in the order they are made. *)
Inductive Event : Type :=
| EvLogUsage (name : string)                  (* telemetryLogger.logUsage *)
| EvSetSetupRunning (b : bool)                (* crcStatus.setSetupRunning *)
| EvSetUpCrc (interactive : bool)             (* await setUpCrc(logger, interactive) *)
| EvNeedSetup                                 (* await needSetup() *)
| EvLoggerError (e : Thrown)                  (* logger.error *)
| EvUpdateStatus (status : string)            (* provider.updateStatus *)
| EvStartSendingLogs                          (* crcLogProvider.startSendingLogs *)
| EvCommanderStart                            (* await commander.start() *)
| EvShowErrorMessage (m : Shown)              (* window.showErrorMessage *)
| EvConsoleError (m : Shown)                  (* console.error *)
| EvShowInputBox                              (* await window.showInputBox *)
| EvPullSecretStore (secret : string)         (* await commander.pullSecretStore *)
| EvConfigGet                                 (* await commander.configGet() *)
| EvConsoleLog (text : string) (e : Thrown)   (* console.log *)
| EvUpdateVersion (version : string)          (* provider.updateVersion *)
| EvDispose (handle : nat)                    (* disposable.dispose() *)
| EvShowInformationMessage (text item : string) (* window.showInformationMessage *)
| EvExistsSync (path : string)                (* fs.existsSync *)
| EvRegisterContainer (handle : nat) (c : Connection)
| EvRegisterKubernetes (handle : nat) (c : Connection)
| EvSubscribe (handle : nat)                  (* extensionContext.subscriptions.push *)
| EvStatusInitialize                          (* await crcStatus.initialize() *)
| EvStartStatusUpdate                         (* crcStatus.startStatusUpdate() *)
| EvAddCommands                               (* the registrations of addCommands *)
| EvSyncPreferences                           (* syncPreferences *)
| EvStopCrc.                                  (* stopCrc(telemetryLogger) *)

(** The events at which the running function is suspended ([await] of a
    collaborator's promise). *)
Definition is_suspension (e : Event) : bool :=
  match e with
  | EvSetUpCrc _ | EvNeedSetup | EvCommanderStart | EvShowInputBox
  | EvPullSecretStore _ | EvConfigGet | EvStatusInitialize | EvStopCrc => true
  | _ => false
  end.

(** What an awaited promise of a collaborator settles to. *)
Inductive Outcome (A : Type) : Type :=
| Resolves (a : A)
| Rejects (e : Thrown).
Arguments Rejects {A} e.

(** A call whose promise was dropped, suspended at its first [await]:
    [presetChanged], waiting in [readPreset] for [commander.configGet()],
    whose promise settles as given. *)
Inductive Task : Type :=
| TaskPresetChanged (settled : Outcome string).

Record State : Type := mkState {
  isNeedSetup : bool;                  (* crc-setup: the exported flag *)
  setupRunning : bool;                 (* crcStatus: the setup-running flag *)
  CrcStatus : string;                  (* crcStatus.status.CrcStatus *)
  providerStatus : string;             (* the status last given to the provider *)
  crcVersion : option string;          (* crcVersion, of which .version is read *)
  connectionDisposable : option nat;   (* extension.ts: let connectionDisposable *)
  live : list (nat * Connection);      (* registered with the host, not disposed *)
  subscriptions : list nat;            (* extensionContext.subscriptions *)
  next_handle : nat;                   (* the next disposable the host hands out *)
  pending : list Task;                 (* calls started and not awaited *)
  trace : list Event
}.

(** The environment. Each answer is a function of the events so far (the
    event of the call itself included). *)
Record World : Type := mkWorld {
  (* util.ts *)
  productName : string;
  getPresetLabel : string -> string;
  isWindows : bool;
  (* crc-setup.ts *)
  setUpCrc_settles : list Event -> Outcome bool;
  needSetup_settles : list Event -> Outcome bool;
  (* crc-status.ts: the daemon status fetched by initialize() *)
  status_fetched : list Event -> string;
  (* daemon-commander.ts *)
  start_settles : list Event -> Outcome string;          (* the Status of the result *)
  pullSecretStore_settles : list Event -> Outcome unit;
  configGet_settles : list Event -> Outcome string;      (* the preset of the result *)
  (* crc-stop.ts *)
  stopCrc_settles : list Event -> Outcome unit;
  (* host and platform *)
  showInputBox_answer : list Event -> option string;
  homedir : string;
  path_resolve : string -> string -> string;
  existsSync : list Event -> bool;
  (* engine built-ins *)
  JSON_parse : string -> Thrown + json;
  JSON_stringify : json -> string
}.

(** ** Statements *)

(** Completion of a statement: it falls through with a value, executes
    [return r], throws, or the model's fuel ran out below it. *)
Inductive Completion (R A : Type) : Type :=
| Normal (a : A)
| Returned (r : R)
| Throws (e : Thrown)
| OutOfFuel.
Arguments Normal {R A} a.
Arguments Returned {R A} r.
Arguments Throws {R A} e.
Arguments OutOfFuel {R A}.

Definition M (R A : Type) : Type := State -> Completion R A * State.

(** The result of a function that was called and awaited. *)
Inductive Result (A : Type) : Type :=
| Value (a : A)
| Raised (e : Thrown)
| Diverged.
Arguments Raised {A} e.
Arguments Diverged {A}.

Definition Fn (A : Type) : Type := State -> Result A * State.

Definition ret {R A} (a : A) : M R A := fun st => (Normal a, st).

Definition bind {R A B} (m : M R A) (k : A -> M R B) : M R B :=
  fun st =>
    match m st with
    | (Normal a, st') => k a st'
    | (Returned r, st') => (Returned r, st')
    | (Throws e, st') => (Throws e, st')
    | (OutOfFuel, st') => (OutOfFuel, st')
    end.

Declare Scope js_scope.
Delimit Scope js_scope with js.
Notation "x <- c1 ;; c2" := (bind c1 (fun x => c2))
  (at level 61, c1 at next level, right associativity) : js_scope.
Notation "c1 ;; c2" := (bind c1 (fun _ => c2))
  (at level 61, right associativity) : js_scope.
Open Scope js_scope.

Definition skip {R} : M R unit := ret tt.
Definition return_ {R A} (r : R) : M R A := fun st => (Returned r, st).
Definition throw {R A} (e : Thrown) : M R A := fun st => (Throws e, st).

(** [try { body } catch (e) { handler e }] *)
Definition try_catch {R A} (body : M R A) (handler : Thrown -> M R A) : M R A :=
  fun st =>
    match body st with
    | (Throws e, st') => handler e st'
    | other => other
    end.

(** [try { body } catch (e) { handler e } finally { final }]: the
    completion of the [finally] block replaces the pending one only when it
    is abrupt. *)
Definition try_catch_finally {R A} (body : M R A) (handler : Thrown -> M R A)
    (final : M R unit) : M R A :=
  fun st =>
    match try_catch body handler st with
    | (OutOfFuel, st') => (OutOfFuel, st')
    | (c, st') =>
        match final st' with
        | (Normal _, st'') => (c, st'')
        | (Returned r, st'') => (Returned r, st'')
        | (Throws e, st'') => (Throws e, st'')
        | (OutOfFuel, st'') => (OutOfFuel, st'')
        end
    end.

(** A function every path of which ends in [return] or [throw]. *)
Definition function {R} (body : M R Empty_set) : Fn R :=
  fun st =>
    match body st with
    | (Normal a, _) => match a with end
    | (Returned r, st') => (Value r, st')
    | (Throws e, st') => (Raised e, st')
    | (OutOfFuel, st') => (Diverged, st')
    end.

(** A [void] function: falling off the end of the body returns too. *)
Definition procedure (body : M unit unit) : Fn unit :=
  fun st =>
    match body st with
    | (Normal _, st') => (Value tt, st')
    | (Returned _, st') => (Value tt, st')
    | (Throws e, st') => (Raised e, st')
    | (OutOfFuel, st') => (Diverged, st')
    end.

(** [await f(...)] *)
Definition await {R A} (f : Fn A) : M R A :=
  fun st =>
    match f st with
    | (Value a, st') => (Normal a, st')
    | (Raised e, st') => (Throws e, st')
    | (Diverged, st') => (OutOfFuel, st')
    end.

(** Reading a property inside a statement. *)
Definition read {R} (v : value) (k : string) : M R value :=
  match get v k with
  | inl e => throw e
  | inr x => ret x
  end.

(** *** State updates *)

Definition emit (e : Event) (st : State) : State :=
  mkState (isNeedSetup st) (setupRunning st) (CrcStatus st) (providerStatus st)
    (crcVersion st) (connectionDisposable st) (live st) (subscriptions st)
    (next_handle st) (pending st) (trace st ++ [e]).

Definition set_isNeedSetup (b : bool) (st : State) : State :=
  mkState b (setupRunning st) (CrcStatus st) (providerStatus st)
    (crcVersion st) (connectionDisposable st) (live st) (subscriptions st)
    (next_handle st) (pending st) (trace st).

Definition set_setupRunning (b : bool) (st : State) : State :=
  mkState (isNeedSetup st) b (CrcStatus st) (providerStatus st)
    (crcVersion st) (connectionDisposable st) (live st) (subscriptions st)
    (next_handle st) (pending st) (trace st).

Definition set_CrcStatus (s : string) (st : State) : State :=
  mkState (isNeedSetup st) (setupRunning st) s (providerStatus st)
    (crcVersion st) (connectionDisposable st) (live st) (subscriptions st)
    (next_handle st) (pending st) (trace st).

Definition set_providerStatus (s : string) (st : State) : State :=
  mkState (isNeedSetup st) (setupRunning st) (CrcStatus st) s
    (crcVersion st) (connectionDisposable st) (live st) (subscriptions st)
    (next_handle st) (pending st) (trace st).

Definition set_connectionDisposable (d : option nat) (st : State) : State :=
  mkState (isNeedSetup st) (setupRunning st) (CrcStatus st) (providerStatus st)
    (crcVersion st) d (live st) (subscriptions st)
    (next_handle st) (pending st) (trace st).

Definition set_live (l : list (nat * Connection)) (st : State) : State :=
  mkState (isNeedSetup st) (setupRunning st) (CrcStatus st) (providerStatus st)
    (crcVersion st) (connectionDisposable st) l (subscriptions st)
    (next_handle st) (pending st) (trace st).

Definition set_subscriptions (l : list nat) (st : State) : State :=
  mkState (isNeedSetup st) (setupRunning st) (CrcStatus st) (providerStatus st)
    (crcVersion st) (connectionDisposable st) (live st) l
    (next_handle st) (pending st) (trace st).

Definition set_next_handle (n : nat) (st : State) : State :=
  mkState (isNeedSetup st) (setupRunning st) (CrcStatus st) (providerStatus st)
    (crcVersion st) (connectionDisposable st) (live st) (subscriptions st)
    n (pending st) (trace st).

Definition set_pending (l : list Task) (st : State) : State :=
  mkState (isNeedSetup st) (setupRunning st) (CrcStatus st) (providerStatus st)
    (crcVersion st) (connectionDisposable st) (live st) (subscriptions st)
    (next_handle st) l (trace st).

(** A host call that completes: the event is recorded. *)
Definition tell {R} (e : Event) : M R unit :=
  fun st => (Normal tt, emit e st).

(** An awaited call to a collaborator: the event is recorded and the
    promise settles as the world says. *)
Definition ask {R A} (e : Event) (settles : list Event -> Outcome A) : M R A :=
  fun st =>
    let st' := emit e st in
    match settles (trace st') with
    | Resolves a => (Normal a, st')
    | Rejects err => (Throws err, st')
    end.

Definition modify {R} (f : State -> State) : M R unit :=
  fun st => (Normal tt, f st).

Definition gets {R A} (f : State -> A) : M R A :=
  fun st => (Normal (f st), st).

(** ** crc-start.ts *)

(** What [startCrc] hands back: it is declared [Promise<boolean>], and its
    bare [return;] yields [undefined]. *)
Inductive BooleanOrUndefined : Type :=
| Undefined
| Boolean (b : bool).

Section CrcStart.

Variable W : World.

(** *** Collaborators *)

Definition logUsage {R} (name : string) : M R unit := tell (EvLogUsage name).
Definition logger_error {R} (e : Thrown) : M R unit := tell (EvLoggerError e).
Definition console_error {R} (m : Shown) : M R unit := tell (EvConsoleError m).
Definition showErrorMessage {R} (m : Shown) : M R unit := tell (EvShowErrorMessage m).
Definition startSendingLogs {R} : M R unit := tell EvStartSendingLogs.

Definition updateStatus {R} (status : string) : M R unit :=
  tell (EvUpdateStatus status) ;; modify (set_providerStatus status).

(** Modelled from the spec: [crcStatus.setSetupRunning] of crc-status.ts,
    the setter of the setup-running flag owned by the status tracker. *)
Definition setSetupRunning {R} (b : bool) : M R unit :=
  tell (EvSetSetupRunning b) ;; modify (set_setupRunning b).

(** Modelled from the spec: [setUpCrc] of crc-setup.ts runs the daemon's
    setup procedure and returns whether setup succeeded; [interactive]
    defaults to [true]. *)
Definition setUpCrc {R} (interactive : bool) : M R bool :=
  ask (EvSetUpCrc interactive) (setUpCrc_settles W).

(** Modelled from the spec: [needSetup] of crc-setup.ts queries whether
    setup is still required, updates the flag [isNeedSetup] and returns
    it. *)
Definition needSetup {R} : M R bool :=
  b <- ask EvNeedSetup (needSetup_settles W) ;;
  modify (set_isNeedSetup b) ;;
  ret b.

Definition commander_start {R} : M R string :=
  ask EvCommanderStart (start_settles W).

Definition commander_pullSecretStore {R} (secret : string) : M R unit :=
  ask (EvPullSecretStore secret) (pullSecretStore_settles W).

Definition showInputBox {R} : M R (option string) :=
  fun st =>
    let st' := emit EvShowInputBox st in
    (Normal (showInputBox_answer W (trace st')), st').

Definition parse {R} (text : string) : M R json :=
  match JSON_parse W text with
  | inl e => throw e
  | inr j => ret j
  end.

(** [Object.keys] of a truthy value. *)
Definition Object_keys (v : value) : list string :=
  match v with
  | Some j => keys j
  | None => []
  end.

(** *** askAndStorePullSecret *)

Definition missing_auths : string :=
  "missing " ++ dq ++ "auths" ++ dq ++ " JSON-object field".

Definition requires_auth (s : json) : string :=
  JSON_stringify W s ++ " JSON-object requires either 'auth' or 'credsStore' field".

Definition not_valid (err : Thrown) : string :=
  "Start failed, pull secret is not valid. Please start again:" ++ nl
    ++ " '" ++ toString err ++ "'".

(** Lines 105-110: [for (const a in s.auths)], over the keys [ks]. *)
Fixpoint check_auths {R} (s : json) (auths : value) (ks : list string) : M R unit :=
  match ks with
  | [] => skip
  | a :: rest =>
      aut <- read auths a ;;
      auth <- read aut "auth" ;;
      (if truthy auth then skip
       else
         credsStore <- read aut "credsStore" ;;
         if truthy credsStore then skip
         else throw (ThrownString (requires_auth s))) ;;
      check_auths s auths rest
  end.

(** Lines 103-113: the body of the first [try]. *)
Definition check_pull_secret {R} (pullSecret : string) : M R unit :=
  s <- parse pullSecret ;;
  auths <- read (Some s) "auths" ;;
  if truthy auths && Nat.ltb 0 (List.length (Object_keys auths)) then
    check_auths s auths (Object_keys auths)
  else
    throw (ThrownString missing_auths).

Definition askAndStorePullSecret : Fn bool :=
  function (
    pullSecret <- showInputBox ;;
    match pullSecret with
    | None => return_ false
    | Some EmptyString => return_ false
    | Some pullSecret =>
        try_catch (check_pull_secret pullSecret)
          (fun err =>
             showErrorMessage (Text (not_valid err)) ;;
             return_ false) ;;
        try_catch
          (commander_pullSecretStore pullSecret ;;
           return_ true)
          (fun error =>
             console_error (Caught error) ;;
             logger_error error) ;;
        return_ false
    end).

(** *** startCrc *)

Definition missingPullSecret : string := "Failed to ask for pull secret".

Definition could_not_start : Thrown := Error "Could not start without pullsecret!".

(** Lines 45-57: the setup block. *)
Definition startCrc_setup : M BooleanOrUndefined unit :=
  need <- gets isNeedSetup ;;
  if need then
    try_catch_finally
      (setSetupRunning true ;;
       _ <- setUpCrc true ;;
       _ <- needSetup ;;
       skip)
      (fun error =>
         logger_error error ;;
         updateStatus "stopped" ;;
         return_ Undefined)
      (setSetupRunning false)
  else skip.

(** Lines 44-66: the body of the outer [try]. *)
Definition startCrc_try : M BooleanOrUndefined unit :=
  startCrc_setup ;;
  startSendingLogs ;;
  Status <- commander_start ;;
  if Status =? "Running" then
    updateStatus "started" ;;
    return_ (Boolean true)
  else
    updateStatus "error" ;;
    showErrorMessage (Text ("Error during starting " ++ productName W ++ ": " ++ Status)).

(** Lines 67-87: the outer [catch]; [again] is the recursive call. *)
Definition startCrc_catch (again : Fn BooleanOrUndefined) (err : Thrown)
    : M BooleanOrUndefined unit :=
  match err_message err with
  | Some message =>
      if prefix missingPullSecret message then
        stored <- await askAndStorePullSecret ;;
        if stored then
          r <- await again ;;
          return_ r
        else
          throw could_not_start
      else if str_is (err_name err) "RequestError" && str_is (err_code err) "ECONNRESET" then
        updateStatus "started" ;;
        return_ (Boolean true)
      else skip
  | None => skip
  end ;;
  showErrorMessage (Caught err) ;;
  console_error (Caught err) ;;
  updateStatus "stopped".

Fixpoint startCrc (fuel : nat) : Fn BooleanOrUndefined :=
  match fuel with
  | 0 => fun st => (Diverged, st)
  | S fuel' =>
      function (
        logUsage "crc.start" ;;
        try_catch startCrc_try (startCrc_catch (startCrc fuel')) ;;
        return_ (Boolean false))
  end.

End CrcStart.

(** ** extension.ts *)

Section Extension.

Variable W : World.

(** *** Collaborators *)

Definition commander_configGet {R} : M R string :=
  ask EvConfigGet (configGet_settles W).

Definition console_log {R} (text : string) (e : Thrown) : M R unit :=
  tell (EvConsoleLog text e).

Definition showInformationMessage {R} (text item : string) : M R unit :=
  tell (EvShowInformationMessage text item).

Definition fs_existsSync {R} (path : string) : M R bool :=
  fun st =>
    let st' := emit (EvExistsSync path) st in
    (Normal (existsSync W (trace st')), st').

Definition remove_handle (h : nat) (l : list (nat * Connection)) : list (nat * Connection) :=
  filter (fun hc => negb (fst hc =? h)%nat) l.

(** [disposable.dispose()]: the connection behind the handle is no longer
    registered. *)
Definition dispose {R} (h : nat) : M R unit :=
  tell (EvDispose h) ;;
  modify (fun st => set_live (remove_handle h (live st)) st).

(** The host registers the connection and hands out a fresh disposable. *)
Definition register {R} (ev : nat -> Connection -> Event) (c : Connection) : M R nat :=
  fun st =>
    let h := next_handle st in
    (Normal h,
     emit (ev h c) (set_next_handle (S h) (set_live (live st ++ [(h, c)]) st))).

Definition registerContainerProviderConnection {R} (c : Connection) : M R nat :=
  register EvRegisterContainer c.

Definition registerKubernetesProviderConnection {R} (c : Connection) : M R nat :=
  register EvRegisterKubernetes c.

Definition subscriptions_push {R} (h : nat) : M R unit :=
  tell (EvSubscribe h) ;;
  modify (fun st => set_subscriptions (subscriptions st ++ [h]) st).

(** Modelled from the spec: [stopCrc] of crc-stop.ts invokes the daemon
    client's stop; only the call and how its promise settles are kept. *)
Definition stopCrc : Fn unit :=
  function (
    r <- ask EvStopCrc (stopCrc_settles W) ;;
    return_ r).

(** Modelled from the spec: [crcStatus.initialize] of crc-status.ts performs
    one status fetch and stores it; [startStatusUpdate] starts the poller.
    The poller itself is left out: the functions below read [CrcStatus]
    only before their first suspension. *)
Definition connectToCrc : Fn unit :=
  procedure (
    tell EvStatusInitialize ;;
    modify (fun st => set_CrcStatus (status_fetched W (trace st)) st) ;;
    tell EvStartStatusUpdate).

(** Lines 239-249: four command registrations and the push-image command. *)
Definition addCommands {R} : M R unit := tell EvAddCommands.

Definition initCommandsAndPreferences {R} : M R unit :=
  addCommands ;;
  tell EvSyncPreferences.

(** *** The preset and its connection *)

Definition readPreset : Fn string :=
  function (
    try_catch
      (preset <- commander_configGet ;;
       return_ preset)
      (fun err =>
         console_log "error while getting preset" err ;;
         return_ "openshift")).

Definition version_of_undefined : Thrown :=
  TypeError "Cannot read properties of undefined (reading 'version')".

Definition updateProviderVersionWithPreset {R} (preset : string) : M R unit :=
  v <- gets crcVersion ;;
  match v with
  | None => throw version_of_undefined
  | Some version =>
      tell (EvUpdateVersion (version ++ " (" ++ getPresetLabel W preset ++ ")"))
  end.

Definition podman_socket : string :=
  if isWindows W then "//./pipe/crc-podman"
  else path_resolve W (homedir W) ".crc/machines/crc/docker.sock".

Definition registerPodmanConnection {R} : M R unit :=
  let socketPath := podman_socket in
  found <- fs_existsSync socketPath ;;
  if found then
    disposable <- registerContainerProviderConnection
                    (ContainerConnection "Podman" "podman" socketPath) ;;
    subscriptions_push disposable
  else
    console_error (Text ("Could not find crc podman socket at " ++ socketPath)).

(** Declared [async] and called without [await]; it has no suspension
    point, so it runs to its end inside the caller's step. *)
Definition registerOpenShiftLocalCluster {R} (name : string) : M R unit :=
  h <- registerKubernetesProviderConnection
         (KubernetesConnection name "https://api.crc.testing:6443") ;;
  modify (set_connectionDisposable (Some h)) ;;
  subscriptions_push h.

Definition podman_notice : string :=
  "Currently we do not support the Podman preset of OpenShift Local. Please use preference to change this:"
    ++ nl ++ nl ++ "Settings > Preferences > Red Hat OpenShift Local > Preset".

(** Lines 362-365: the binding held in [connectionDisposable] is disposed
    and forgotten. *)
Definition release_binding {R} : M R unit :=
  d <- gets connectionDisposable ;;
  match d with
  | Some h =>
      dispose h ;;
      modify (set_connectionDisposable None)
  | None => skip
  end.

(** Lines 367-378: the connection of the preset is registered. *)
Definition bind_preset {R} (preset : string) : M R unit :=
  if preset =? "podman" then
    showInformationMessage podman_notice "OK" ;;
    registerPodmanConnection
  else if (preset =? "openshift") || (preset =? "microshift") then
    registerOpenShiftLocalCluster (getPresetLabel W preset)
  else skip.

Definition presetChanged : Fn unit :=
  procedure (
    preset <- await readPreset ;;
    updateProviderVersionWithPreset preset ;;
    release_binding ;;
    bind_preset preset).

(** *** presetChanged without await

    [presetChanged(...)] as a statement of its own: the call runs to the first
    [await], which is the one of [readPreset] on [commander.configGet()], so
    the query is sent before the caller goes on; the rest is queued. *)

Definition presetChanged_unawaited {R} : M R unit :=
  fun st =>
    let st' := emit EvConfigGet st in
    (Normal tt,
     set_pending (pending st' ++ [TaskPresetChanged (configGet_settles W (trace st'))]) st').

(** The value of an [await] whose promise has settled. *)
Definition settle {R A} (o : Outcome A) : M R A :=
  match o with
  | Resolves a => ret a
  | Rejects e => throw e
  end.

(** [readPreset] and [presetChanged] from the point where the promise of
    [commander.configGet()] has settled. *)
Definition readPreset_resumed (settled : Outcome string) : Fn string :=
  function (
    try_catch
      (preset <- settle settled ;;
       return_ preset)
      (fun err =>
         console_log "error while getting preset" err ;;
         return_ "openshift")).

Definition presetChanged_resumed (settled : Outcome string) : Fn unit :=
  procedure (
    preset <- await (readPreset_resumed settled) ;;
    updateProviderVersionWithPreset preset ;;
    release_binding ;;
    bind_preset preset).

(** A suspended call resumes; nobody observes how its promise settles. *)
Definition run_task (t : Task) : Fn unit :=
  match t with
  | TaskPresetChanged settled => presetChanged_resumed settled
  end.

(** The calls in flight resume, in the order they were made. *)
Definition resume_all (st : State) : State :=
  fold_left (fun s t => snd (run_task t s)) (pending st) (set_pending [] st).

(** [await f(...)] on a call that keeps the caller suspended for as long as
    the daemon takes to start a cluster: the calls in flight, which only
    wait for the daemon's configuration, resume meanwhile.  They work on the
    bindings and [f] does not, so they are resumed here when [f] ends. *)
Definition await_through {R A} (f : Fn A) : M R A :=
  fun st =>
    match f st with
    | (Value a, st') => (Normal a, resume_all st')
    | (Raised e, st') => (Throws e, resume_all st')
    | (Diverged, st') => (OutOfFuel, st')
    end.

(** *** Creating and starting the cluster *)

Definition initializeCrc : Fn bool :=
  function (
    hasSetupFinished <- setUpCrc W false ;;
    (if hasSetupFinished : bool then
       _ <- needSetup W ;;
       await connectToCrc ;;
       presetChanged_unawaited ;;
       initCommandsAndPreferences
     else skip) ;;
    return_ hasSetupFinished).

Definition is_true (r : BooleanOrUndefined) : bool :=
  match r with
  | Boolean true => true
  | _ => false
  end.

Definition is_none {A} (o : option A) : bool :=
  match o with
  | None => true
  | Some _ => false
  end.

Definition createCrcVm (fuel : nat) : Fn unit :=
  procedure (
    status <- gets CrcStatus ;;
    (if negb (status =? "No Cluster") && negb (status =? "Need Setup") then
       return_ tt
     else skip) ;;
    (if status =? "Need Setup" then
       initResult <- await initializeCrc ;;
       if negb initResult then
         throw (Error (productName W ++ " not initialized."))
       else skip
     else skip) ;;
    hasStarted <- await_through (startCrc W fuel) ;;
    d <- gets connectionDisposable ;;
    if is_none d && is_true hasStarted then
      addCommands ;;
      presetChanged_unawaited
    else skip).

(** *** Callbacks handed to the host *)

(** Lines 115-118 and 119-122. *)
Definition providerLifecycle_start (fuel : nat) : Fn unit :=
  procedure (
    updateStatus "starting" ;;
    _ <- await (startCrc W fuel) ;;
    skip).

Definition providerLifecycle_stop : Fn unit :=
  function (
    updateStatus "stopping" ;;
    r <- await stopCrc ;;
    return_ r).

(** Lines 309-312 and 313-316. *)
Definition connectionLifecycle_start (fuel : nat) : Fn unit :=
  procedure (
    updateStatus "starting" ;;
    _ <- await (startCrc W fuel) ;;
    skip).

Definition connectionLifecycle_stop : Fn unit :=
  function (
    updateStatus "stopping" ;;
    r <- await stopCrc ;;
    return_ r).

(** Lines 127-133: the Kubernetes connection factory. *)
Definition factory_initialize (fuel : nat) : Fn unit :=
  procedure (await (createCrcVm fuel)).

Definition factory_create (fuel : nat) : Fn unit :=
  procedure (
    await (createCrcVm fuel) ;;
    await presetChanged).

End Extension.

(** ** A model of the JSON built-ins

    An executable [JSON.parse] and [JSON.stringify] for the part of JSON a
    pull secret is written in: objects, arrays, strings with the
    single-character escapes, integers and the three literals.  A text with a
    fraction, an exponent or a [\u] escape is outside this model and is
    reported as a syntax error.  The functions above take the built-ins from
    the [World]; this model is what concrete worlds are built with. *)

Module JSON.

Definition dquote : ascii := ascii_of_nat 34.
Definition backslash : ascii := ascii_of_nat 92.

Definition is_ws (c : ascii) : bool :=
  let n := nat_of_ascii c in
  (n =? 32)%nat || (n =? 9)%nat || (n =? 10)%nat || (n =? 13)%nat.

Definition is_digit (c : ascii) : bool :=
  let n := nat_of_ascii c in
  (48 <=? n)%nat && (n <=? 57)%nat.

Fixpoint skip_ws (l : list ascii) : list ascii :=
  match l with
  | c :: r => if is_ws c then skip_ws r else l
  | [] => []
  end.

(** An array index is a canonical decimal below 2^32 - 1; such keys are
    enumerated first, in ascending order. *)
Definition array_index (k : string) : option N :=
  match NilZero.uint_of_string k with
  | Some u =>
      let n := N.of_uint u in
      if (NilZero.string_of_uint (N.to_uint n) =? k) && (n <? 4294967295)%N
      then Some n else None
  | None => None
  end.

Definition comes_before (k k' : string) : bool :=
  match array_index k, array_index k' with
  | Some i, Some j => (i <? j)%N
  | Some _, None => true
  | None, _ => false
  end.

Fixpoint has_key (k : string) (props : list (string * json)) : bool :=
  match props with
  | [] => false
  | (k', _) :: r => (k =? k') || has_key k r
  end.

Fixpoint replace (k : string) (v : json) (props : list (string * json))
    : list (string * json) :=
  match props with
  | [] => []
  | (k', v') :: r => if k =? k' then (k, v) :: r else (k', v') :: replace k v r
  end.

Fixpoint insert (k : string) (v : json) (props : list (string * json))
    : list (string * json) :=
  match props with
  | [] => [(k, v)]
  | (k', v') :: r =>
      if comes_before k k' then (k, v) :: props else (k', v') :: insert k v r
  end.

(** Defining a property while the object is built: a repeated key keeps its
    place and takes the later value. *)
Definition define (k : string) (v : json) (props : list (string * json))
    : list (string * json) :=
  if has_key k props then replace k v props else insert k v props.

Definition unescape (c : ascii) : option ascii :=
  let n := nat_of_ascii c in
  if (n =? 34)%nat || (n =? 92)%nat || (n =? 47)%nat then Some c
  else if (n =? 98)%nat then Some (ascii_of_nat 8)
  else if (n =? 102)%nat then Some (ascii_of_nat 12)
  else if (n =? 110)%nat then Some (ascii_of_nat 10)
  else if (n =? 114)%nat then Some (ascii_of_nat 13)
  else if (n =? 116)%nat then Some (ascii_of_nat 9)
  else None.

(** The characters of a string literal after its opening quote. *)
Fixpoint parse_string (l : list ascii) : option (string * list ascii) :=
  match l with
  | [] => None
  | c :: r =>
      if Ascii.eqb c dquote then Some (EmptyString, r)
      else if Ascii.eqb c backslash then
        match r with
        | e :: r' =>
            match unescape e, parse_string r' with
            | Some x, Some (s, rest) => Some (String x s, rest)
            | _, _ => None
            end
        | [] => None
        end
      else if (nat_of_ascii c <? 32)%nat then None
      else
        match parse_string r with
        | Some (s, rest) => Some (String c s, rest)
        | None => None
        end
  end.

Fixpoint take_digits (l : list ascii) : list ascii * list ascii :=
  match l with
  | c :: r =>
      if is_digit c then let (ds, rest) := take_digits r in (c :: ds, rest)
      else ([], l)
  | [] => ([], [])
  end.

Definition digits_value (ds : list ascii) : Z :=
  fold_left (fun acc c => (acc * 10 + Z.of_nat (nat_of_ascii c - 48))%Z) ds 0%Z.

Definition starts_fraction (l : list ascii) : bool :=
  match l with
  | c :: _ =>
      let n := nat_of_ascii c in
      (n =? 46)%nat || (n =? 101)%nat || (n =? 69)%nat
  | [] => false
  end.

(** An integer literal: no leading zero, an optional minus sign. *)
Definition parse_number (l : list ascii) : option (json * list ascii) :=
  let (neg, l') :=
    match l with
    | c :: r => if (nat_of_ascii c =? 45)%nat then (true, r) else (false, l)
    | [] => (false, l)
    end in
  let (ds, rest) := take_digits l' in
  match ds with
  | [] => None
  | d :: more =>
      let leading_zero :=
        match more with
        | [] => false
        | _ :: _ => (nat_of_ascii d =? 48)%nat
        end in
      if leading_zero then None
      else if starts_fraction rest then None
      else
        let n := digits_value ds in
        Some (JNumber (if neg : bool then (- n)%Z else n), rest)
  end.

Definition literal (word : string) (j : json) (l : list ascii)
    : option (json * list ascii) :=
  let w := list_ascii_of_string word in
  if list_eq_dec ascii_dec (firstn (List.length w) l) w
  then Some (j, skipn (List.length w) l) else None.

Fixpoint parse_value (fuel : nat) (l : list ascii) : option (json * list ascii) :=
  match fuel with
  | 0 => None
  | S f =>
      match skip_ws l with
      | [] => None
      | c :: r =>
          let n := nat_of_ascii c in
          if (n =? 123)%nat then
            match skip_ws r with
            | c' :: r' =>
                if (nat_of_ascii c' =? 125)%nat then Some (JObject [], r')
                else parse_members f [] (c' :: r')
            | [] => None
            end
          else if (n =? 91)%nat then
            match skip_ws r with
            | c' :: r' =>
                if (nat_of_ascii c' =? 93)%nat then Some (JArray [], r')
                else parse_elements f [] (c' :: r')
            | [] => None
            end
          else if (n =? 34)%nat then
            match parse_string r with
            | Some (s, rest) => Some (JString s, rest)
            | None => None
            end
          else if (n =? 116)%nat then literal "true" (JBool true) (c :: r)
          else if (n =? 102)%nat then literal "false" (JBool false) (c :: r)
          else if (n =? 110)%nat then literal "null" JNull (c :: r)
          else parse_number (c :: r)
      end
  end

with parse_members (fuel : nat) (acc : list (string * json)) (l : list ascii)
    : option (json * list ascii) :=
  match fuel with
  | 0 => None
  | S f =>
      match skip_ws l with
      | c :: r =>
          if Ascii.eqb c dquote then
            match parse_string r with
            | Some (k, r1) =>
                match skip_ws r1 with
                | colon :: r2 =>
                    if (nat_of_ascii colon =? 58)%nat then
                      match parse_value f r2 with
                      | Some (v, r3) =>
                          match skip_ws r3 with
                          | sep :: r4 =>
                              if (nat_of_ascii sep =? 44)%nat then
                                parse_members f (define k v acc) r4
                              else if (nat_of_ascii sep =? 125)%nat then
                                Some (JObject (define k v acc), r4)
                              else None
                          | [] => None
                          end
                      | None => None
                      end
                    else None
                | [] => None
                end
            | None => None
            end
          else None
      | [] => None
      end
  end

with parse_elements (fuel : nat) (acc : list json) (l : list ascii)
    : option (json * list ascii) :=
  match fuel with
  | 0 => None
  | S f =>
      match parse_value f l with
      | Some (v, r) =>
          match skip_ws r with
          | sep :: r' =>
              if (nat_of_ascii sep =? 44)%nat then parse_elements f (acc ++ [v]) r'
              else if (nat_of_ascii sep =? 93)%nat then Some (JArray (acc ++ [v]), r')
              else None
          | [] => None
          end
      | None => None
      end
  end.

Definition SyntaxError : Thrown :=
  ErrorObject (Some "SyntaxError") (Some "Unexpected token in JSON") None.

Definition parse (text : string) : Thrown + json :=
  let l := list_ascii_of_string text in
  match parse_value (2 * List.length l + 2) l with
  | Some (j, rest) =>
      match skip_ws rest with
      | [] => inr j
      | _ :: _ => inl SyntaxError
      end
  | None => inl SyntaxError
  end.

Definition hex_digit (n : nat) : ascii :=
  if (n <? 10)%nat then ascii_of_nat (48 + n) else ascii_of_nat (87 + n).

Definition escape_char (c : ascii) : string :=
  let n := nat_of_ascii c in
  let bs := String backslash EmptyString in
  if (n =? 34)%nat || (n =? 92)%nat then String backslash (String c EmptyString)
  else if (n =? 8)%nat then bs ++ "b"
  else if (n =? 12)%nat then bs ++ "f"
  else if (n =? 10)%nat then bs ++ "n"
  else if (n =? 13)%nat then bs ++ "r"
  else if (n =? 9)%nat then bs ++ "t"
  else if (n <? 32)%nat then
    bs ++ "u00" ++ String (hex_digit (n / 16)) (String (hex_digit (n mod 16)) EmptyString)
  else String c EmptyString.

Definition quote (s : string) : string :=
  dq ++ String.concat EmptyString (map escape_char (list_ascii_of_string s)) ++ dq.

Definition string_of_Z (n : Z) : string :=
  NilZero.string_of_int (Z.to_int n).

Fixpoint stringify (j : json) : string :=
  match j with
  | JNull => "null"
  | JBool true => "true"
  | JBool false => "false"
  | JNumber n => string_of_Z n
  | JString s => quote s
  | JArray items =>
      "[" ++ (fix elements (l : list json) : string :=
                match l with
                | [] => EmptyString
                | x :: r =>
                    match r with
                    | [] => stringify x
                    | _ :: _ => stringify x ++ "," ++ elements r
                    end
                end) items ++ "]"
  | JObject props =>
      "{" ++ (fix members (l : list (string * json)) : string :=
                match l with
                | [] => EmptyString
                | (k, v) :: r =>
                    match r with
                    | [] => quote k ++ ":" ++ stringify v
                    | _ :: _ => quote k ++ ":" ++ stringify v ++ "," ++ members r
                    end
                end) props ++ "}"
  end.

End JSON.

(** ** The classes of errors thrown by the daemon's start call

    In the words of the recovery policy: an error whose message begins with
    the missing-pull-secret marker; and a connection reset, an error with a
    string message that does not begin with the marker, with name
    [RequestError] and code [ECONNRESET]. *)

Definition is_missing_pull_secret (err : Thrown) : bool :=
  match err_message err with
  | Some message => prefix missingPullSecret message
  | None => false
  end.

Definition is_connection_reset (err : Thrown) : bool :=
  match err_message err with
  | Some message =>
      negb (prefix missingPullSecret message)
      && str_is (err_name err) "RequestError"
      && str_is (err_code err) "ECONNRESET"
  | None => false
  end.

(** ** The shape of a pull secret, in the spec's words

    "[auths] is non-empty, and every entry has at least one of [auth] or
    [credsStore]".  An entry has a field when reading it gives a value that
    counts as present (a truthy one). *)

Definition has_field (aut : value) (field : string) : Prop :=
  exists v, get aut field = inr v /\ truthy v = true.

Definition entry_ok (auths : value) (a : string) : Prop :=
  exists aut,
    get auths a = inr aut /\ (has_field aut "auth" \/ has_field aut "credsStore").

Definition valid_pull_secret (s : json) : Prop :=
  exists auths,
    get (Some s) "auths" = inr auths
    /\ truthy auths = true
    /\ Object_keys auths <> nil
    /\ forall a, In a (Object_keys auths) -> entry_ok auths a.

(** The three rejected shapes of the spec and its well-formed example. *)
Definition secret_no_auths : string := "{}".
Definition secret_empty_auths : string := "{" ++ dq ++ "auths" ++ dq ++ ":{}}".
Definition secret_bare_entry : string :=
  "{" ++ dq ++ "auths" ++ dq ++ ":{" ++ dq ++ "r" ++ dq ++ ":{}}}".
Definition secret_valid : string :=
  "{" ++ dq ++ "auths" ++ dq ++ ":{" ++ dq ++ "registry.io" ++ dq ++ ":{"
    ++ dq ++ "auth" ++ dq ++ ":" ++ dq ++ "xxx" ++ dq ++ "}}}".

Definition parsed_no_auths : json := JObject [].
Definition parsed_empty_auths : json := JObject [("auths", JObject [])].
Definition parsed_bare_entry : json :=
  JObject [("auths", JObject [("r", JObject [])])].
Definition parsed_valid : json :=
  JObject [("auths", JObject [("registry.io", JObject [("auth", JString "xxx")])])].

(** ** Concrete worlds *)

Definition count (p : Event -> bool) (h : list Event) : nat :=
  List.length (filter p h).

Definition is_start (e : Event) : bool :=
  match e with EvCommanderStart => true | _ => false end.

Definition is_prompt (e : Event) : bool :=
  match e with EvShowInputBox => true | _ => false end.

Definition is_configGet (e : Event) : bool :=
  match e with EvConfigGet => true | _ => false end.

(** The answer to the n-th call of one kind is the n-th entry of a script;
    past its end the last resort [dflt] is given. *)
Definition scripted {A} (p : Event -> bool) (script : list A) (dflt : A)
    (h : list Event) : A :=
  nth (count p h - 1) script dflt.

(** A world in which setup fails or succeeds as told, the daemon's start
    calls, the prompts and the configuration queries follow scripts, the
    pull secret is stored, and the podman socket exists or not. *)
Definition world (setup : Outcome bool) (starts : list (Outcome string))
    (prompts : list (option string)) (presets : list (Outcome string))
    (socket : bool) : World :=
  {| productName := "OpenShift Local";
     getPresetLabel := fun preset =>
       if preset =? "microshift" then "MicroShift"
       else if preset =? "podman" then "Podman" else "OpenShift";
     isWindows := false;
     setUpCrc_settles := fun _ => setup;
     needSetup_settles := fun _ => Resolves false;
     status_fetched := fun _ => "Stopped";
     start_settles := scripted is_start starts (Resolves "Running");
     pullSecretStore_settles := fun _ => Resolves tt;
     configGet_settles := scripted is_configGet presets (Resolves "openshift");
     stopCrc_settles := fun _ => Resolves tt;
     showInputBox_answer := scripted is_prompt prompts None;
     homedir := "/home/user";
     path_resolve := fun a b => a ++ "/" ++ b;
     existsSync := fun _ => socket;
     JSON_parse := JSON.parse;
     JSON_stringify := JSON.stringify |}.

Definition initial (needs_setup : bool) (version : option string) : State :=
  {| isNeedSetup := needs_setup;
     setupRunning := false;
     CrcStatus := "Stopped";
     providerStatus := "installed";
     crcVersion := version;
     connectionDisposable := None;
     live := [];
     subscriptions := [];
     next_handle := 0;
     pending := [];
     trace := [] |}.

Definition pull_secret_missing : Thrown :=
  ErrorObject (Some "RequestError")
    (Some "Failed to ask for pull secret: no pull secret configured") None.

Definition connection_reset : Thrown :=
  ErrorObject (Some "RequestError") (Some "read ECONNRESET") (Some "ECONNRESET").

Definition setup_failed : Thrown := Error "setup failed".

(** The preset is podman, then openshift; the podman socket exists. *)
Definition podman_then_openshift : World :=
  world (Resolves true) [] [] [Resolves "podman"; Resolves "openshift"] true.

(** The preset is podman and there is no socket. *)
Definition podman_without_socket : World :=
  world (Resolves true) [] [] [Resolves "podman"] false.

(** The daemon lacks a pull secret and the user cancels the prompt. *)
Definition prompt_cancelled : World :=
  world (Resolves true) [Rejects pull_secret_missing] [None] [] false.

(** The daemon lacks a pull secret, the user gives a valid one, and the
    second start reports a running cluster. *)
Definition secret_supplied : World :=
  world (Resolves true) [Rejects pull_secret_missing; Resolves "Running"]
    [Some secret_valid] [] false.

(** Setup is required and succeeds; the daemon reports a running cluster. *)
Definition cluster_runs : World :=
  world (Resolves true) [Resolves "Running"] [] [] false.

(** Setup is required and fails. *)
Definition setup_fails : World :=
  world (Rejects setup_failed) [] [] [] false.

(** The daemon's answer to the start call is lost to a connection reset. *)
Definition connection_resets : World :=
  world (Resolves true) [Rejects connection_reset] [] [] false.

(** The user enters a secret whose only entry has no field. *)
Definition bare_entry_entered : World :=
  world (Resolves true) [] [Some secret_bare_entry] [] false.

(** The daemon cannot be asked for its configuration. *)
Definition daemon_unreachable : World :=
  world (Resolves true) [] [] [Rejects connection_reset] false.

(** Version 2.18 is installed: before and after its setup. *)
Definition fresh_install : State := initial true (Some "2.18").
Definition installed : State := initial false (Some "2.18").

Definition Podman_connection : Connection :=
  ContainerConnection "Podman" "podman" "/home/user/.crc/machines/crc/docker.sock".

Definition OpenShift_connection : Connection :=
  KubernetesConnection "OpenShift" "https://api.crc.testing:6443".

(** ** States along a run, and what is said about them *)

Open Scope list_scope.
Unset Implicit Arguments.

(** The state in which the body of the outer [try] is entered. *)
Definition entered (st : State) : State := emit (EvLogUsage "crc.start") st.

(** The state in which [commander.start()] has just been called. *)
Definition start_called (st0 : State) : State :=
  emit EvCommanderStart (emit EvStartSendingLogs st0).

(** The state in which the input box has just been shown. *)
Definition prompted (st : State) : State := emit EvShowInputBox st.

(** How a run of [askAndStorePullSecret] ends. *)
Inductive Asked (W : World) (st : State) : bool -> State -> Prop :=
| AskedNothing :
    showInputBox_answer W (trace (prompted st)) = None \/
    showInputBox_answer W (trace (prompted st)) = Some EmptyString ->
    Asked W st false (prompted st)
| AskedInvalid (secret : string) (err : Thrown) :
    showInputBox_answer W (trace (prompted st)) = Some secret ->
    check_pull_secret (R:=bool) W secret (prompted st) = (Throws err, prompted st) ->
    Asked W st false (emit (EvShowErrorMessage (Text (not_valid err))) (prompted st))
| AskedStored (secret : string) (s : json) :
    showInputBox_answer W (trace (prompted st)) = Some secret ->
    JSON_parse W secret = inr s ->
    valid_pull_secret s ->
    pullSecretStore_settles W (trace (prompted st) ++ [EvPullSecretStore secret])
      = Resolves tt ->
    Asked W st true (emit (EvPullSecretStore secret) (prompted st))
| AskedNotStored (secret : string) (s : json) (error : Thrown) :
    showInputBox_answer W (trace (prompted st)) = Some secret ->
    JSON_parse W secret = inr s ->
    valid_pull_secret s ->
    pullSecretStore_settles W (trace (prompted st) ++ [EvPullSecretStore secret])
      = Rejects error ->
    Asked W st false
      (emit (EvLoggerError error)
         (emit (EvConsoleError (Caught error))
            (emit (EvPullSecretStore secret) (prompted st)))).

(** What the value of an awaited call becomes when it is returned. *)
Definition returned (x : Result BooleanOrUndefined * State)
    : Completion BooleanOrUndefined unit * State :=
  match x with
  | (Value r, st) => (Returned r, st)
  | (Raised e, st) => (Throws e, st)
  | (Diverged, st) => (OutOfFuel, st)
  end.

Definition shown_and_stopped (err : Thrown) (st1 : State) : State :=
  set_providerStatus "stopped"
    (emit (EvUpdateStatus "stopped")
       (emit (EvConsoleError (Caught err))
          (emit (EvShowErrorMessage (Caught err)) st1))).

Definition marked_started (st1 : State) : State :=
  set_providerStatus "started" (emit (EvUpdateStatus "started") st1).

(** One trace continues another. *)
Definition extends (st st' : State) : Prop :=
  exists evs, trace st' = trace st ++ evs.

Definition grows {R A : Type} (m : M R A) : Prop :=
  forall st, extends st (snd (m st)).

Definition grows_fn {A : Type} (f : Fn A) : Prop :=
  forall st, extends st (snd (f st)).

(** The state after [provider.updateStatus(status)]. *)
Definition status_set (status : string) (st : State) : State :=
  set_providerStatus status (emit (EvUpdateStatus status) st).

Definition is_register (e : Event) : bool :=
  match e with
  | EvRegisterContainer _ _ | EvRegisterKubernetes _ _ => true
  | _ => false
  end.

(** The state after lines 362-365. *)
Definition released (st : State) : State :=
  match connectionDisposable st with
  | Some h =>
      set_connectionDisposable None
        (set_live (remove_handle h (live st)) (emit (EvDispose h) st))
  | None => st
  end.

Definition version_updated (W : World) (preset version : string) (st : State) : State :=
  emit (EvUpdateVersion (version ++ " (" ++ getPresetLabel W preset ++ ")")%string) st.

(** Every live binding is the one held in [connectionDisposable]. *)
Definition single_binding (st : State) : Prop :=
  live st = [] \/
  exists h c, live st = [(h, c)] /\ connectionDisposable st = Some h.

Definition is_store (e : Event) : bool :=
  match e with
  | EvPullSecretStore _ => true
  | _ => false
  end.

(** The three shapes: the text, what it parses to, and the problem named in
    the message. *)
Definition rejected_shapes (W : World) : list (string * json * string) :=
  [ (secret_no_auths, parsed_no_auths, missing_auths);
    (secret_empty_auths, parsed_empty_auths, missing_auths);
    (secret_bare_entry, parsed_bare_entry, requires_auth W parsed_bare_entry) ].

(** ** Invariants and frames *)

(** A statement, or a called function, keeps [I]. *)
Definition maintains {R A : Type} (I : State -> Prop) (m : M R A) : Prop :=
  forall st, I st -> I (snd (m st)).

Definition maintains_fn {A : Type} (I : State -> Prop) (f : Fn A) : Prop :=
  forall st, I st -> I (snd (f st)).

(** What the binder owns: the registered connections, the held disposable,
    the subscriptions, the next handle and the calls in flight. *)
Definition bindings (st : State)
    : list (nat * Connection) * option nat * list nat * nat * list Task :=
  (live st, connectionDisposable st, subscriptions st, next_handle st, pending st).

(** What activation found: the version and the tracked daemon status. *)
Definition installation (st : State) : option string * string :=
  (crcVersion st, CrcStatus st).

Definition handles (st : State) : list nat := map fst (live st).

(** Handles of live connections are distinct and were all handed out. *)
Definition well_handled (st : State) : Prop :=
  NoDup (handles st) /\ forall h, In h (handles st) -> h < next_handle st.

(** The preset is one that has a Kubernetes connection. *)
Definition is_cluster_preset (preset : string) : bool :=
  negb (preset =? "podman")%string
  && ((preset =? "openshift")%string || (preset =? "microshift")%string).

Definition not_initialized (W : World) : Thrown :=
  Error (productName W ++ " not initialized.")%string.

(** Setup is required; it ends without having finished. *)
Definition setup_unfinished : World :=
  world (Resolves false) [Resolves "Running"] [] [] false.

(** The user enters the well-formed secret. *)
Definition secret_entered : World :=
  world (Resolves true) [] [Some secret_valid] [] false.

(** The daemon reports a cluster that is not running. *)
Definition cluster_degraded : World :=
  world (Resolves true) [Resolves "Degraded"] [] [] false.

(** The user enters a text that is not JSON. *)
Definition garbage_entered : World :=
  world (Resolves true) [] [Some "oops"] [] false.

(** The preset is openshift. *)
Definition openshift_preset : World :=
  world (Resolves true) [] [] [Resolves "openshift"] false.

(** The preset is openshift, then podman; there is no podman socket. *)
Definition openshift_then_podman : World :=
  world (Resolves true) [] [] [Resolves "openshift"; Resolves "podman"] false.

(** The preset is openshift, then one the extension does not know. *)
Definition openshift_then_unknown : World :=
  world (Resolves true) [] [] [Resolves "openshift"; Resolves "okd"] false.

(** The installed state after a first [presetChanged] under the openshift
    preset: the Kubernetes connection is registered and held. *)
Definition openshift_bound : State :=
  snd (presetChanged openshift_preset installed).

(** The preset is one the extension does not know. *)
Definition unknown_preset : World :=
  world (Resolves true) [] [] [Resolves "okd"] false.

(** Setup is still required. *)
Definition need_setup : State :=
  set_CrcStatus "Need Setup" fresh_install.

(** * Properties *)

(** ** Evaluation *)

Ltac unfold_monad :=
  unfold function, procedure, await, try_catch_finally, try_catch, bind, ret,
    skip, return_, throw, tell, ask, modify, gets in *.

Ltac unfold_host :=
  unfold logUsage, logger_error, console_error, showErrorMessage,
    startSendingLogs, updateStatus, setSetupRunning, setUpCrc, needSetup,
    commander_start, commander_pullSecretStore, showInputBox in *.

(** Traces are compared with their appends nested to the right. *)
Ltac right_nested := repeat rewrite <- app_assoc in *; cbn [app] in *.

Lemma trace_emit (e : Event) (st : State) : trace (emit e st) = trace st ++ [e].
Proof. reflexivity. Qed.

(** ** The setup block of startCrc *)

Section StartFlow.

Variable W : World.

Lemma startCrc_setup_not_required (st : State) :
  isNeedSetup st = false -> startCrc_setup W st = (Normal tt, st).
Proof.
  intros H. unfold startCrc_setup. unfold_monad. rewrite H. reflexivity.
Qed.

Lemma startCrc_setup_completes (st : State) (done again : bool) :
  isNeedSetup st = true ->
  setUpCrc_settles W (trace st ++ [EvSetSetupRunning true; EvSetUpCrc true])
    = Resolves done ->
  needSetup_settles W
      (trace st ++ [EvSetSetupRunning true; EvSetUpCrc true; EvNeedSetup])
    = Resolves again ->
  exists st',
    startCrc_setup W st = (Normal tt, st')
    /\ trace st' = trace st ++ [EvSetSetupRunning true; EvSetUpCrc true;
                                EvNeedSetup; EvSetSetupRunning false]
    /\ isNeedSetup st' = again
    /\ setupRunning st' = false.
Proof.
  intros Hneed Hsetup Hcheck.
  unfold startCrc_setup. unfold_host. unfold_monad. rewrite Hneed. cbn.
  right_nested. rewrite Hsetup. cbn. right_nested. rewrite Hcheck. cbn.
  eexists. split; [reflexivity |]. cbn. right_nested. auto.
Qed.

(** Whatever happens in the setup block, it ends by clearing the flag. *)
Lemma startCrc_setup_releases (st st' : State) (c : Completion BooleanOrUndefined unit) :
  isNeedSetup st = true ->
  startCrc_setup W st = (c, st') ->
  setupRunning st' = false
  /\ exists evs,
       trace st' = trace st ++ EvSetSetupRunning true :: evs ++ [EvSetSetupRunning false].
Proof.
  intros Hneed. unfold startCrc_setup. unfold_host. unfold_monad.
  rewrite Hneed. cbn.
  destruct (setUpCrc_settles W _) as [done | e1]; cbn.
  - destruct (needSetup_settles W _) as [again | e2]; cbn;
      intros H; inversion H; subst; clear H; cbn; split; auto.
    + exists [EvSetUpCrc true; EvNeedSetup]. right_nested. reflexivity.
    + exists [EvSetUpCrc true; EvNeedSetup; EvLoggerError e2; EvUpdateStatus "stopped"].
      right_nested. reflexivity.
  - intros H; inversion H; subst; clear H; cbn; split; auto.
    exists [EvSetUpCrc true; EvLoggerError e1; EvUpdateStatus "stopped"].
    right_nested. reflexivity.
Qed.

(** ** The outer try block *)

Lemma trace_start_called (st0 : State) :
  trace (start_called st0) = trace st0 ++ [EvStartSendingLogs; EvCommanderStart].
Proof. cbn. right_nested. reflexivity. Qed.

Lemma startCrc_try_resolved (st st0 : State) (Status : string) :
  startCrc_setup W st = (Normal tt, st0) ->
  start_settles W (trace (start_called st0)) = Resolves Status ->
  startCrc_try W st =
    if (Status =? "Running")%string then
      (Returned (Boolean true),
       set_providerStatus "started" (emit (EvUpdateStatus "started") (start_called st0)))
    else
      (Normal tt,
       emit (EvShowErrorMessage
               (Text ("Error during starting " ++ productName W ++ ": " ++ Status)%string))
         (set_providerStatus "error" (emit (EvUpdateStatus "error") (start_called st0)))).
Proof.
  intros Hsetup Hstart. unfold startCrc_try.
  unfold bind at 1. rewrite Hsetup.
  unfold_host. unfold_monad. unfold start_called in Hstart.
  rewrite Hstart. destruct (Status =? "Running")%string; reflexivity.
Qed.

Lemma startCrc_try_rejected (st st0 : State) (err : Thrown) :
  startCrc_setup W st = (Normal tt, st0) ->
  start_settles W (trace (start_called st0)) = Rejects err ->
  startCrc_try W st = (Throws err, start_called st0).
Proof.
  intros Hsetup Hstart. unfold startCrc_try.
  unfold bind at 1. rewrite Hsetup.
  unfold_host. unfold_monad. unfold start_called in Hstart.
  rewrite Hstart. reflexivity.
Qed.

Lemma startCrc_S (fuel : nat) (st : State) :
  startCrc W (S fuel) st =
    function (
      logUsage "crc.start" ;;
      try_catch (startCrc_try W) (startCrc_catch W (startCrc W fuel)) ;;
      return_ (Boolean false)) st.
Proof. reflexivity. Qed.

Lemma startCrc_run (fuel : nat) (st : State) :
  startCrc W (S fuel) st =
    match startCrc_try W (entered st) with
    | (Normal _, st1) => (Value (Boolean false), st1)
    | (Returned r, st1) => (Value r, st1)
    | (Throws err, st1) =>
        match startCrc_catch W (startCrc W fuel) err st1 with
        | (Normal _, st2) => (Value (Boolean false), st2)
        | (Returned r, st2) => (Value r, st2)
        | (Throws e, st2) => (Raised e, st2)
        | (OutOfFuel, st2) => (Diverged, st2)
        end
    | (OutOfFuel, st1) => (Diverged, st1)
    end.
Proof.
  rewrite startCrc_S. unfold logUsage, entered. unfold_monad.
  destruct (startCrc_try W _) as [[a | r | err | ] st1]; try reflexivity.
  destruct (startCrc_catch W _ err st1) as [[a | r | e | ] st2]; reflexivity.
Qed.

(** ** askAndStorePullSecret *)

Lemma check_auths_cases (R : Type) (s : json) (auths : value) (ks : list string)
    (st : State) :
  (check_auths (R:=R) W s auths ks st = (Normal tt, st)
   /\ forall a, In a ks -> entry_ok auths a)
  \/ exists err, check_auths (R:=R) W s auths ks st = (Throws err, st).
Proof.
  induction ks as [| a rest IH]; cbn.
  - left. split; [reflexivity | intros a []].
  - unfold read, bind, throw, ret, skip.
    destruct (get auths a) as [e | aut] eqn:Haut; [right; eauto |].
    destruct (get aut "auth") as [e | auth] eqn:Hauth; [right; eauto |].
    destruct (truthy auth) eqn:Tauth; cbn.
    + destruct IH as [[IH1 IH2] | [err IH]].
      * left. rewrite IH1. split; [reflexivity |].
        intros a' [<- | Hin]; [| auto].
        exists aut. split; [assumption |]. left. exists auth. auto.
      * right. exists err. rewrite IH. reflexivity.
    + destruct (get aut "credsStore") as [e | creds] eqn:Hcreds; [right; eauto |].
      destruct (truthy creds) eqn:Tcreds; cbn; [| right; eauto].
      destruct IH as [[IH1 IH2] | [err IH]].
      * left. rewrite IH1. split; [reflexivity |].
        intros a' [<- | Hin]; [| auto].
        exists aut. split; [assumption |]. right. exists creds. auto.
      * right. exists err. rewrite IH. reflexivity.
Qed.

(** The first [try] block changes nothing; it falls through on a secret of
    the valid shape only. *)
Lemma check_pull_secret_cases (R : Type) (secret : string) (st : State) :
  (check_pull_secret (R:=R) W secret st = (Normal tt, st)
   /\ exists s, JSON_parse W secret = inr s /\ valid_pull_secret s)
  \/ exists err, check_pull_secret (R:=R) W secret st = (Throws err, st).
Proof.
  unfold check_pull_secret, parse, read, bind, throw, ret.
  destruct (JSON_parse W secret) as [e | s] eqn:Hparse; [right; eauto |].
  destruct (get (Some s) "auths") as [e | auths] eqn:Hauths; [right; eauto |].
  destruct (truthy auths) eqn:Tauths; cbn [andb]; [| right; eauto].
  destruct (Nat.ltb 0 (List.length (Object_keys auths))) eqn:Hlen; [| right; eauto].
  destruct (check_auths_cases R s auths (Object_keys auths) st)
    as [[H1 H2] | [err H]].
  - left. split; [assumption |]. exists s. split; [reflexivity |].
    exists auths. repeat split; auto.
    intros Hnil. rewrite Hnil in Hlen. discriminate.
  - right. eauto.
Qed.

(** [askAndStorePullSecret] always returns a boolean, in one of the four
    ways above. *)
Lemma askAndStorePullSecret_returns (st : State) :
  exists stored st2,
    askAndStorePullSecret W st = (Value stored, st2) /\ Asked W st stored st2.
Proof.
  unfold askAndStorePullSecret, function, showInputBox.
  unfold bind at 1. fold (prompted st).
  destruct (showInputBox_answer W (trace (prompted st))) as [secret |] eqn:Hanswer.
  - destruct secret as [| c secret'] eqn:Hsecret.
    + exists false, (prompted st). split; [reflexivity |].
      apply AskedNothing. auto.
    + rewrite <- Hsecret in *. clear Hsecret c secret'.
      unfold bind at 1. unfold try_catch at 1.
      destruct (check_pull_secret_cases bool secret (prompted st))
        as [[Hok [s [Hparse Hvalid]]] | [err Herr]].
      * rewrite Hok.
        unfold commander_pullSecretStore, ask, console_error, logger_error, tell,
          bind, return_, try_catch. cbn.
        destruct (pullSecretStore_settles W _) as [[] | error] eqn:Hstore.
        -- exists true. eexists. split; [reflexivity |].
           eapply AskedStored; eauto.
        -- exists false. eexists. split; [reflexivity |].
           eapply AskedNotStored; eauto.
      * rewrite Herr.
        unfold showErrorMessage, tell, bind, return_. cbn.
        exists false. eexists. split; [reflexivity |].
        eapply AskedInvalid; eauto.
  - exists false, (prompted st). split; [reflexivity |].
    apply AskedNothing. auto.
Qed.

(** ** The outer catch block *)

Lemma startCrc_catch_missing (again : Fn BooleanOrUndefined) (err : Thrown)
    (st1 st2 : State) (stored : bool) :
  is_missing_pull_secret err = true ->
  askAndStorePullSecret W st1 = (Value stored, st2) ->
  startCrc_catch W again err st1 =
    if stored then returned (again st2) else (Throws could_not_start, st2).
Proof.
  unfold is_missing_pull_secret, startCrc_catch. intros Hm Hask.
  destruct (err_message err) as [message |]; [| discriminate].
  rewrite Hm. unfold_monad. rewrite Hask.
  destruct stored; [| reflexivity].
  unfold returned. destruct (again st2) as [[r | e |] st3]; reflexivity.
Qed.

Lemma startCrc_catch_reset (again : Fn BooleanOrUndefined) (err : Thrown)
    (st1 : State) :
  is_connection_reset err = true ->
  startCrc_catch W again err st1 = (Returned (Boolean true), marked_started st1).
Proof.
  unfold is_connection_reset, startCrc_catch. intros Hr.
  destruct (err_message err) as [message |]; [| discriminate].
  apply andb_true_iff in Hr. destruct Hr as [Hr Hcode].
  apply andb_true_iff in Hr. destruct Hr as [Hprefix Hname].
  apply negb_true_iff in Hprefix. rewrite Hprefix, Hname, Hcode.
  reflexivity.
Qed.

Lemma startCrc_catch_other (again : Fn BooleanOrUndefined) (err : Thrown)
    (st1 : State) :
  is_missing_pull_secret err = false ->
  is_connection_reset err = false ->
  startCrc_catch W again err st1 = (Normal tt, shown_and_stopped err st1).
Proof.
  unfold is_missing_pull_secret, is_connection_reset, startCrc_catch.
  intros Hm Hr.
  destruct (err_message err) as [message |]; [| reflexivity].
  rewrite Hm in *. cbn [negb andb] in Hr. rewrite Hr. reflexivity.
Qed.

Lemma class_exclusive (err : Thrown) :
  is_missing_pull_secret err = true -> is_connection_reset err = false.
Proof.
  unfold is_missing_pull_secret, is_connection_reset.
  destruct (err_message err); [| reflexivity]. intros ->. reflexivity.
Qed.

(** What [startCrc] does with an error thrown by [commander.start()]. *)
Lemma startCrc_rejected (fuel : nat) (st st0 : State) (err : Thrown) :
  startCrc_setup W (entered st) = (Normal tt, st0) ->
  start_settles W (trace (start_called st0)) = Rejects err ->
  (is_missing_pull_secret err = true ->
   exists stored st2,
     askAndStorePullSecret W (start_called st0) = (Value stored, st2)
     /\ Asked W (start_called st0) stored st2
     /\ startCrc W (S fuel) st =
          if stored then startCrc W fuel st2 else (Raised could_not_start, st2))
  /\ (is_connection_reset err = true ->
      startCrc W (S fuel) st = (Value (Boolean true), marked_started (start_called st0)))
  /\ (is_missing_pull_secret err = false ->
      is_connection_reset err = false ->
      startCrc W (S fuel) st =
        (Value (Boolean false), shown_and_stopped err (start_called st0))).
Proof.
  intros Hsetup Hstart.
  pose proof (startCrc_try_rejected _ _ _ Hsetup Hstart) as Htry.
  rewrite startCrc_run, Htry.
  split; [| split].
  - intros Hm.
    destruct (askAndStorePullSecret_returns (start_called st0))
      as [stored [st2 [Hask Hhow]]].
    exists stored, st2. split; [assumption |]. split; [assumption |].
    rewrite startCrc_catch_missing with (stored := stored) (st2 := st2) by assumption.
    destruct stored; [| reflexivity].
    unfold returned. destruct (startCrc W fuel st2) as [[r | e |] st3]; reflexivity.
  - intros Hr. rewrite startCrc_catch_reset by assumption. reflexivity.
  - intros Hm Hr. rewrite startCrc_catch_other by assumption. reflexivity.
Qed.

(** An error leaves [startCrc] only as the explicit one. *)
Lemma startCrc_raises (fuel : nat) :
  forall st e st', startCrc W fuel st = (Raised e, st') -> e = could_not_start.
Proof.
  induction fuel as [| fuel IH]; intros st e st'.
  - cbn. discriminate.
  - rewrite startCrc_run.
    destruct (startCrc_try W (entered st)) as [[a | r | err |] st1];
      try discriminate.
    destruct (is_missing_pull_secret err) eqn:Hm.
    + destruct (askAndStorePullSecret_returns st1) as [stored [st2 [Hask _]]].
      rewrite startCrc_catch_missing with (stored := stored) (st2 := st2) by assumption.
      destruct stored.
      * unfold returned.
        destruct (startCrc W fuel st2) as [[r | e' |] st3] eqn:Hagain;
          try discriminate.
        intros H. inversion H; subst. eapply IH. eassumption.
      * intros H. inversion H. reflexivity.
    + destruct (is_connection_reset err) eqn:Hr.
      * rewrite startCrc_catch_reset by assumption. discriminate.
      * rewrite startCrc_catch_other by assumption. discriminate.
Qed.

(** A run that ended keeps its outcome when given more fuel. *)
Lemma startCrc_more_fuel (fuel : nat) :
  forall st r st',
    startCrc W fuel st = (r, st') -> r <> Diverged ->
    startCrc W (S fuel) st = (r, st').
Proof.
  induction fuel as [| fuel IH]; intros st r st' Hrun Hr.
  - cbn in Hrun. inversion Hrun. congruence.
  - rewrite startCrc_run in Hrun. rewrite startCrc_run.
    destruct (startCrc_try W (entered st)) as [[a | r0 | err |] st1];
      try assumption.
    destruct (is_missing_pull_secret err) eqn:Hm.
    + destruct (askAndStorePullSecret_returns st1) as [stored [st2 [Hask _]]].
      rewrite startCrc_catch_missing with (stored := stored) (st2 := st2) in Hrun
        by assumption.
      rewrite startCrc_catch_missing with (stored := stored) (st2 := st2)
        by assumption.
      destruct stored; [| assumption].
      unfold returned in *.
      destruct (startCrc W fuel st2) as [[r1 | e1 |] st3] eqn:Hagain.
      * rewrite (IH st2 _ _ Hagain) by discriminate. assumption.
      * rewrite (IH st2 _ _ Hagain) by discriminate. assumption.
      * inversion Hrun. congruence.
    + destruct (is_connection_reset err) eqn:Hreset.
      * rewrite startCrc_catch_reset in * by assumption. assumption.
      * rewrite startCrc_catch_other in * by assumption. assumption.
Qed.

Lemma count_app (p : Event -> bool) (h h' : list Event) :
  count p (h ++ h') = count p h + count p h'.
Proof. unfold count. rewrite filter_app, length_app. reflexivity. Qed.

(** [askAndStorePullSecret] does not call [commander.start()]. *)
Lemma Asked_no_start (st st2 : State) (stored : bool) :
  Asked W st stored st2 -> count is_start (trace st2) = count is_start (trace st).
Proof.
  intros H. destruct H; cbn [trace emit prompted];
    repeat rewrite count_app; cbn; lia.
Qed.

Lemma Asked_stored (st st2 : State) :
  Asked W st true st2 ->
  exists secret s,
    showInputBox_answer W (trace (prompted st)) = Some secret
    /\ JSON_parse W secret = inr s
    /\ valid_pull_secret s
    /\ pullSecretStore_settles W (trace (prompted st) ++ [EvPullSecretStore secret])
       = Resolves tt.
Proof.
  intros H. inversion H; subst. eauto 6.
Qed.

Lemma Asked_cancelled (st st2 : State) (stored : bool) :
  showInputBox_answer W (trace (prompted st)) = None ->
  Asked W st stored st2 ->
  stored = false /\ st2 = prompted st.
Proof.
  intros Hnone H. destruct H; try congruence; auto.
Qed.

End StartFlow.

(** C1. When the setup block of [startCrc] completes (setup not required,
    or run to its end) and [commander.start()] resolves, the outcome follows
    from the returned [Status] alone: for ["Running"] the provider status
    becomes ["started"] and [startCrc] returns [true]; for any other value
    the provider status becomes ["error"], an error message naming the
    status is shown and [startCrc] returns [false]. *)
Theorem startCrc_outcome_follows_Status (W : World) (fuel : nat) (st st0 : State)
    (Status : string) :
  startCrc_setup W (entered st) = (Normal tt, st0) ->
  start_settles W (trace (start_called st0)) = Resolves Status ->
  (Status = "Running"%string ->
   exists st',
     startCrc W (S fuel) st = (Value (Boolean true), st')
     /\ providerStatus st' = "started"%string
     /\ trace st' = trace (start_called st0) ++ [EvUpdateStatus "started"])
  /\
  (Status <> "Running"%string ->
   exists st',
     startCrc W (S fuel) st = (Value (Boolean false), st')
     /\ providerStatus st' = "error"%string
     /\ trace st' =
          trace (start_called st0) ++
            [EvUpdateStatus "error";
             EvShowErrorMessage
               (Text ("Error during starting " ++ productName W ++ ": " ++ Status)%string)]).
Proof.
  intros Hsetup Hstart.
  pose proof (startCrc_try_resolved W _ _ _ Hsetup Hstart) as Htry.
  split; intros HS.
  - subst Status. cbn in Htry. rewrite startCrc_run, Htry.
    eexists. split; [reflexivity |]. split; reflexivity.
  - apply String.eqb_neq in HS. rewrite HS in Htry.
    rewrite startCrc_run, Htry.
    eexists. split; [reflexivity |]. split; [reflexivity |].
    cbn. right_nested. reflexivity.
Qed.

(** C2. With [isNeedSetup] set and [setUpCrc] throwing, [startCrc] logs the
    error, sets the provider status to ["stopped"] and returns a value that
    is not [true] (the bare [return;] gives [undefined]); and on every way
    out of the setup block, whether it completed or threw,
    [setSetupRunning(false)] is the last thing done, so the flag ends up
    cleared. *)
Theorem startCrc_setup_failure_releases (W : World) (fuel : nat) (st : State) :
  isNeedSetup st = true ->
  (forall error,
     setUpCrc_settles W
         (trace st ++ [EvLogUsage "crc.start"; EvSetSetupRunning true; EvSetUpCrc true])
       = Rejects error ->
     exists st',
       startCrc W (S fuel) st = (Value Undefined, st')
       /\ is_true Undefined = false
       /\ trace st' =
            trace st ++ [EvLogUsage "crc.start"; EvSetSetupRunning true; EvSetUpCrc true;
                         EvLoggerError error; EvUpdateStatus "stopped";
                         EvSetSetupRunning false]
       /\ providerStatus st' = "stopped"%string
       /\ setupRunning st' = false)
  /\
  (forall c st',
     startCrc_setup W (entered st) = (c, st') ->
     setupRunning st' = false
     /\ exists evs,
          trace st' =
            trace (entered st) ++ EvSetSetupRunning true :: evs ++ [EvSetSetupRunning false]).
Proof.
  intros Hneed. split.
  - intros error Hsetup.
    rewrite startCrc_run. unfold startCrc_try, startCrc_setup.
    unfold_host. unfold_monad. cbn. rewrite Hneed. cbn.
    right_nested. rewrite Hsetup. cbn.
    eexists. split; [reflexivity |]. cbn. right_nested. auto.
  - intros c st' H. eapply startCrc_setup_releases; eauto.
Qed.

(** C3. When [commander.start()] throws an error whose message begins with
    the missing-pull-secret marker, [askAndStorePullSecret] is run.  If it
    returns [true] (the user gave a secret of the valid shape and the daemon
    stored it), [startCrc] is called again and the overall outcome is the
    outcome of that call.  If it returns [false] (as it does when the user
    cancels the prompt), [startCrc] throws the error "Could not start
    without pullsecret!" and [commander.start()] is not called again. *)
Theorem startCrc_retries_with_pull_secret (W : World) (fuel : nat)
    (st st0 : State) (err : Thrown) :
  startCrc_setup W (entered st) = (Normal tt, st0) ->
  start_settles W (trace (start_called st0)) = Rejects err ->
  is_missing_pull_secret err = true ->
  exists stored st2,
    askAndStorePullSecret W (start_called st0) = (Value stored, st2)
    /\ (stored = true ->
        startCrc W (S fuel) st = startCrc W fuel st2
        /\ exists secret s,
             showInputBox_answer W (trace (prompted (start_called st0))) = Some secret
             /\ JSON_parse W secret = inr s
             /\ valid_pull_secret s
             /\ pullSecretStore_settles W
                  (trace (prompted (start_called st0)) ++ [EvPullSecretStore secret])
                = Resolves tt)
    /\ (stored = false ->
        startCrc W (S fuel) st = (Raised could_not_start, st2)
        /\ count is_start (trace st2) = count is_start (trace (start_called st0)))
    /\ (showInputBox_answer W (trace (prompted (start_called st0))) = None ->
        stored = false).
Proof.
  intros Hsetup Hstart Hm.
  destruct (startCrc_rejected W fuel st st0 err Hsetup Hstart) as [H _].
  destruct (H Hm) as [stored [st2 [Hask [Hhow Hrun]]]].
  exists stored, st2. split; [assumption |]. repeat split.
  - subst stored. assumption.
  - subst stored. eapply Asked_stored. eassumption.
  - subst stored. assumption.
  - eapply Asked_no_start. eassumption.
  - intros Hnone. eapply Asked_cancelled; eassumption.
Qed.

(** C4. When [commander.start()] throws a connection reset (a string
    message that does not begin with the marker, name [RequestError], code
    [ECONNRESET]), [startCrc] sets the provider status to ["started"] and
    returns [true].  Any other thrown error that is not a missing pull
    secret either is shown to the user and logged, the provider status
    becomes ["stopped"] and [startCrc] returns [false]. *)
Theorem startCrc_connection_reset_is_success (W : World) (fuel : nat)
    (st st0 : State) (err : Thrown) :
  startCrc_setup W (entered st) = (Normal tt, st0) ->
  start_settles W (trace (start_called st0)) = Rejects err ->
  (is_connection_reset err = true ->
   exists st',
     startCrc W (S fuel) st = (Value (Boolean true), st')
     /\ providerStatus st' = "started"%string
     /\ trace st' = trace (start_called st0) ++ [EvUpdateStatus "started"])
  /\
  (is_connection_reset err = false ->
   is_missing_pull_secret err = false ->
   exists st',
     startCrc W (S fuel) st = (Value (Boolean false), st')
     /\ providerStatus st' = "stopped"%string
     /\ trace st' =
          trace (start_called st0) ++
            [EvShowErrorMessage (Caught err); EvConsoleError (Caught err);
             EvUpdateStatus "stopped"]).
Proof.
  intros Hsetup Hstart.
  destruct (startCrc_rejected W fuel st st0 err Hsetup Hstart) as [_ [Hreset Hother]].
  split.
  - intros Hr. rewrite (Hreset Hr). eexists. split; [reflexivity |].
    split; reflexivity.
  - intros Hr Hm. rewrite (Hother Hm Hr). eexists. split; [reflexivity |].
    split; [reflexivity |]. cbn. right_nested. reflexivity.
Qed.

(** C8, as the code has it. An error thrown by [commander.start()] is
    caught by [startCrc] and never thrown on: a missing pull secret leads to
    [askAndStorePullSecret], a connection reset to the status ["started"]
    and the result [true], any other error to a message, the status
    ["stopped"] and the result [false].  The only error [startCrc] throws to
    its caller is its own "Could not start without pullsecret!", raised
    when [askAndStorePullSecret] returned [false]. *)
Theorem startCrc_throws_only_without_pull_secret (W : World) (fuel : nat) (st : State) :
  (forall e st', startCrc W fuel st = (Raised e, st') -> e = could_not_start)
  /\
  (forall st0 err,
     startCrc_setup W (entered st) = (Normal tt, st0) ->
     start_settles W (trace (start_called st0)) = Rejects err ->
     (is_missing_pull_secret err = true ->
      exists stored st2,
        askAndStorePullSecret W (start_called st0) = (Value stored, st2)
        /\ startCrc W (S fuel) st =
             if stored then startCrc W fuel st2 else (Raised could_not_start, st2))
     /\ (is_connection_reset err = true ->
         startCrc W (S fuel) st =
           (Value (Boolean true), marked_started (start_called st0)))
     /\ (is_missing_pull_secret err = false ->
         is_connection_reset err = false ->
         startCrc W (S fuel) st =
           (Value (Boolean false), shown_and_stopped err (start_called st0)))).
Proof.
  split.
  - intros e st'. apply startCrc_raises.
  - intros st0 err Hsetup Hstart.
    destruct (startCrc_rejected W fuel st st0 err Hsetup Hstart)
      as [Hmissing [Hreset Hother]].
    split; [| split]; auto.
    intros Hm. destruct (Hmissing Hm) as [stored [st2 [Hask [_ Hrun]]]].
    eauto.
Qed.

(** ** Traces only grow *)

Lemma extends_refl (st : State) : extends st st.
Proof. exists []. rewrite app_nil_r. reflexivity. Qed.

Lemma extends_trans (a b c : State) : extends a b -> extends b c -> extends a c.
Proof.
  intros [e1 H1] [e2 H2]. exists (e1 ++ e2).
  rewrite H2, H1, app_assoc. reflexivity.
Qed.

Lemma extends_same (st st' : State) : trace st' = trace st -> extends st st'.
Proof. intros H. exists []. rewrite app_nil_r. assumption. Qed.

Lemma extends_emit (e : Event) (st : State) : extends st (emit e st).
Proof. exists [e]. reflexivity. Qed.

Section Growth.

Context {R A B : Type}.

Lemma grows_ret (a : A) : grows (R:=R) (ret a).
Proof. intros st. apply extends_refl. Qed.

Lemma grows_return (r : R) : grows (A:=A) (return_ r).
Proof. intros st. apply extends_refl. Qed.

Lemma grows_throw (e : Thrown) : grows (R:=R) (A:=A) (throw e).
Proof. intros st. apply extends_refl. Qed.

Lemma grows_gets (f : State -> A) : grows (R:=R) (gets f).
Proof. intros st. apply extends_refl. Qed.

Lemma grows_modify (f : State -> State) :
  (forall st, trace (f st) = trace st) -> grows (R:=R) (modify f).
Proof. intros H st. apply extends_same, H. Qed.

Lemma grows_tell (e : Event) : grows (R:=R) (tell e).
Proof. intros st. apply extends_emit. Qed.

Lemma grows_ask (e : Event) (settles : list Event -> Outcome A) :
  grows (R:=R) (ask e settles).
Proof.
  intros st. unfold ask. destruct (settles _); apply extends_emit.
Qed.

Lemma grows_bind (m : M R A) (k : A -> M R B) :
  grows m -> (forall a, grows (k a)) -> grows (bind m k).
Proof.
  intros Hm Hk st. unfold bind. specialize (Hm st).
  destruct (m st) as [[a | r | e |] st']; cbn in *; try assumption.
  eapply extends_trans; [eassumption | apply Hk].
Qed.

Lemma grows_try_catch (body : M R A) (handler : Thrown -> M R A) :
  grows body -> (forall e, grows (handler e)) -> grows (try_catch body handler).
Proof.
  intros Hb Hh st. unfold try_catch. specialize (Hb st).
  destruct (body st) as [[a | r | e |] st']; cbn in *; try assumption.
  eapply extends_trans; [eassumption | apply Hh].
Qed.

Lemma grows_try_catch_finally (body : M R A) (handler : Thrown -> M R A)
    (final : M R unit) :
  grows body -> (forall e, grows (handler e)) -> grows final ->
  grows (try_catch_finally body handler final).
Proof.
  intros Hb Hh Hf st. unfold try_catch_finally.
  pose proof (grows_try_catch body handler Hb Hh st) as H.
  destruct (try_catch body handler st) as [[a | r | e |] st']; cbn in *;
    try assumption;
    specialize (Hf st');
    destruct (final st') as [[[] | r' | e' |] st'']; cbn in *;
    eapply extends_trans; eassumption.
Qed.

Lemma grows_await (f : Fn A) : grows_fn f -> grows (R:=R) (await f).
Proof.
  intros H st. unfold await. specialize (H st).
  destruct (f st) as [[a | e |] st']; assumption.
Qed.

End Growth.

Lemma grows_function {R : Type} (body : M R Empty_set) :
  grows body -> grows_fn (function body).
Proof.
  intros H st. unfold function. specialize (H st).
  destruct (body st) as [[[] | r | e |] st']; assumption.
Qed.

Lemma grows_procedure (body : M unit unit) :
  grows body -> grows_fn (procedure body).
Proof.
  intros H st. unfold procedure. specialize (H st).
  destruct (body st) as [[a | r | e |] st']; assumption.
Qed.

(** One step of the structural argument. *)
Ltac grow_step :=
  first
    [ solve [auto]
    | apply grows_ret | apply grows_return | apply grows_throw
    | apply grows_gets | apply grows_tell | apply grows_ask
    | apply grows_modify; reflexivity
    | apply grows_await
    | apply grows_try_catch_finally; [| intro |]
    | apply grows_try_catch; [| intro]
    | apply grows_bind; [| intro]
    | match goal with
      | |- grows (if ?b then _ else _) => destruct b
      | |- grows (match ?x with _ => _ end) => destruct x
      end ].

Ltac grow := repeat grow_step.

Section GrowthOfStart.

Variable W : World.

Lemma grows_updateStatus {R : Type} (status : string) :
  grows (R:=R) (updateStatus status).
Proof. unfold updateStatus. grow. Qed.

Lemma grows_setSetupRunning {R : Type} (b : bool) :
  grows (R:=R) (setSetupRunning b).
Proof. unfold setSetupRunning. grow. Qed.

Lemma grows_needSetup {R : Type} : grows (R:=R) (needSetup W).
Proof. unfold needSetup. grow. Qed.

Lemma grows_startCrc_setup : grows (startCrc_setup W).
Proof.
  pose proof (@grows_updateStatus BooleanOrUndefined).
  pose proof (@grows_setSetupRunning BooleanOrUndefined).
  pose proof (@grows_needSetup BooleanOrUndefined).
  unfold startCrc_setup, setUpCrc, logger_error. grow; auto.
Qed.

Lemma grows_startCrc_try : grows (startCrc_try W).
Proof.
  pose proof grows_startCrc_setup.
  pose proof (@grows_updateStatus BooleanOrUndefined).
  unfold startCrc_try, startSendingLogs, commander_start, showErrorMessage.
  grow; auto.
Qed.

Lemma grows_askAndStorePullSecret : grows_fn (askAndStorePullSecret W).
Proof.
  intros st.
  destruct (askAndStorePullSecret_returns W st) as [stored [st2 [Hrun Hhow]]].
  rewrite Hrun. cbn [snd].
  destruct Hhow; unfold extends, prompted; cbn;
    eexists; right_nested; reflexivity.
Qed.

Lemma grows_startCrc_catch (again : Fn BooleanOrUndefined) (err : Thrown) :
  grows_fn again -> grows (startCrc_catch W again err).
Proof.
  intros Hagain.
  pose proof grows_askAndStorePullSecret.
  pose proof (@grows_updateStatus BooleanOrUndefined).
  unfold startCrc_catch, showErrorMessage, console_error.
  grow; auto.
Qed.

Lemma grows_startCrc (fuel : nat) : grows_fn (startCrc W fuel).
Proof.
  induction fuel as [| fuel IH].
  - intros st. apply extends_refl.
  - cbn [startCrc]. apply grows_function.
    pose proof grows_startCrc_try.
    pose proof (fun err => grows_startCrc_catch (startCrc W fuel) err IH).
    unfold logUsage. grow; auto.
Qed.

End GrowthOfStart.

(** ** Lifecycle callbacks *)

Lemma start_callback_run (W : World) (fuel : nat) (st : State) :
  procedure (updateStatus "starting" ;; _ <- await (startCrc W fuel) ;; skip) st =
    match startCrc W fuel (status_set "starting" st) with
    | (Value _, st') => (Value tt, st')
    | (Raised e, st') => (Raised e, st')
    | (Diverged, st') => (Diverged, st')
    end.
Proof.
  unfold updateStatus. unfold_monad. cbn. fold (status_set "starting" st).
  destruct (startCrc W fuel _) as [[r | e |] st']; reflexivity.
Qed.

Lemma start_callback_trace (W : World) (fuel : nat) (st : State) :
  exists rest,
    trace (snd (startCrc W fuel (status_set "starting" st))) =
      trace st ++ EvUpdateStatus "starting" :: rest.
Proof.
  destruct (grows_startCrc W fuel (status_set "starting" st)) as [evs H].
  exists evs. rewrite H. cbn. right_nested. reflexivity.
Qed.

Lemma stop_callback_run (W : World) (st : State) :
  function (updateStatus "stopping" ;; r <- await (stopCrc W) ;; return_ r) st =
    stopCrc W (status_set "stopping" st).
Proof.
  unfold updateStatus, stopCrc. unfold_monad. cbn. fold (status_set "stopping" st).
  destruct (stopCrc_settles W _) as [[] | e]; reflexivity.
Qed.

Lemma stopCrc_trace (W : World) (st : State) :
  trace (snd (stopCrc W st)) = trace st ++ [EvStopCrc].
Proof.
  unfold stopCrc. unfold_monad. cbn.
  destruct (stopCrc_settles W _) as [[] | e]; reflexivity.
Qed.

(** C9. Both start callbacks handed to the host (the provider lifecycle and
    the Kubernetes connection lifecycle) first set the provider status to
    ["starting"] and only then run [startCrc]: the status update is the
    first effect of the callback, ahead of every suspension, and [startCrc]
    runs from the state in which the provider status is ["starting"].  Both
    stop callbacks likewise set ["stopping"] and then call [stopCrc]. *)
Theorem lifecycle_status_precedes_suspension (W : World) (fuel : nat) (st : State) :
  (snd (providerLifecycle_start W fuel st)
     = snd (startCrc W fuel (status_set "starting" st))
   /\ providerStatus (status_set "starting" st) = "starting"%string
   /\ is_suspension (EvUpdateStatus "starting") = false
   /\ exists rest,
        trace (snd (providerLifecycle_start W fuel st))
          = trace st ++ EvUpdateStatus "starting" :: rest)
  /\
  (snd (connectionLifecycle_start W fuel st)
     = snd (startCrc W fuel (status_set "starting" st))
   /\ exists rest,
        trace (snd (connectionLifecycle_start W fuel st))
          = trace st ++ EvUpdateStatus "starting" :: rest)
  /\
  (providerLifecycle_stop W st = stopCrc W (status_set "stopping" st)
   /\ providerStatus (status_set "stopping" st) = "stopping"%string
   /\ trace (snd (providerLifecycle_stop W st))
        = trace st ++ [EvUpdateStatus "stopping"; EvStopCrc])
  /\
  (connectionLifecycle_stop W st = stopCrc W (status_set "stopping" st)
   /\ trace (snd (connectionLifecycle_stop W st))
        = trace st ++ [EvUpdateStatus "stopping"; EvStopCrc]).
Proof.
  assert (Hstart :
    snd (providerLifecycle_start W fuel st)
      = snd (startCrc W fuel (status_set "starting" st))).
  { unfold providerLifecycle_start. rewrite start_callback_run.
    destruct (startCrc W fuel _) as [[r | e |] st']; reflexivity. }
  assert (Hstop :
    trace (snd (stopCrc W (status_set "stopping" st)))
      = trace st ++ [EvUpdateStatus "stopping"; EvStopCrc]).
  { rewrite stopCrc_trace. cbn. right_nested. reflexivity. }
  repeat split.
  - exact Hstart.
  - rewrite Hstart. apply start_callback_trace.
  - exact Hstart.
  - unfold connectionLifecycle_start. fold (providerLifecycle_start W fuel).
    rewrite Hstart. apply start_callback_trace.
  - apply stop_callback_run.
  - unfold providerLifecycle_stop. rewrite stop_callback_run. exact Hstop.
  - apply stop_callback_run.
  - unfold connectionLifecycle_stop. rewrite stop_callback_run. exact Hstop.
Qed.

(** ** The preset *)

Lemma readPreset_run (W : World) (st : State) :
  readPreset W st =
    match configGet_settles W (trace st ++ [EvConfigGet]) with
    | Resolves preset => (Value preset, emit EvConfigGet st)
    | Rejects err =>
        (Value "openshift"%string,
         emit (EvConsoleLog "error while getting preset" err) (emit EvConfigGet st))
    end.
Proof.
  unfold readPreset, commander_configGet, console_log. unfold_monad. cbn.
  destruct (configGet_settles W _); reflexivity.
Qed.

(** C7. When [commander.configGet()] throws, [readPreset] does not throw:
    it logs the error and returns the default preset ["openshift"]; in every
    case [readPreset] returns a preset. *)
Theorem readPreset_defaults_to_openshift (W : World) (st : State) :
  (forall err,
     configGet_settles W (trace st ++ [EvConfigGet]) = Rejects err ->
     readPreset W st =
       (Value "openshift"%string,
        emit (EvConsoleLog "error while getting preset" err) (emit EvConfigGet st)))
  /\ exists preset st', readPreset W st = (Value preset, st').
Proof.
  rewrite readPreset_run. split.
  - intros err H. rewrite H. reflexivity.
  - destruct (configGet_settles W _); eauto.
Qed.

(** ** createCrcVm *)

(** C10. When the tracked daemon status is neither ["No Cluster"] nor
    ["Need Setup"], [createCrcVm] returns at once and leaves the state as it
    was: no event is recorded (no setup, no start, no command registered),
    no connection is registered and no call is left pending.  The factory's
    [initialize] is this call alone. *)
Theorem createCrcVm_returns_when_cluster_exists (W : World) (fuel : nat) (st : State) :
  CrcStatus st <> "No Cluster"%string ->
  CrcStatus st <> "Need Setup"%string ->
  createCrcVm W fuel st = (Value tt, st)
  /\ factory_initialize W fuel st = (Value tt, st).
Proof.
  intros H1 H2.
  apply String.eqb_neq in H1. apply String.eqb_neq in H2.
  assert (H : createCrcVm W fuel st = (Value tt, st)).
  { unfold createCrcVm. unfold_monad. rewrite H1, H2. reflexivity. }
  split; [exact H |].
  unfold factory_initialize. unfold_monad. rewrite H. reflexivity.
Qed.

(** ** presetChanged *)

Section PresetFlow.

Variable W : World.

Lemma release_binding_run {R : Type} (st : State) :
  release_binding (R:=R) st = (Normal tt, released st).
Proof.
  unfold release_binding, released, dispose. unfold_monad.
  destruct (connectionDisposable st); reflexivity.
Qed.

Lemma released_single (st : State) :
  single_binding st -> live (released st) = [].
Proof.
  unfold released. intros [Hnil | [h [c [Hlive Hd]]]].
  - destruct (connectionDisposable st); cbn; rewrite Hnil; reflexivity.
  - rewrite Hd. cbn. rewrite Hlive. cbn. rewrite Nat.eqb_refl. reflexivity.
Qed.

(** Binding a preset does not throw and registers at most one connection. *)
Lemma bind_preset_run (preset : string) (st : State) :
  exists st',
    bind_preset (R:=unit) W preset st = (Normal tt, st')
    /\ extends st st'
    /\ exists new, live st' = live st ++ new /\ List.length new <= 1.
Proof.
  unfold bind_preset, showInformationMessage, registerPodmanConnection,
    registerOpenShiftLocalCluster, registerContainerProviderConnection,
    registerKubernetesProviderConnection, register, subscriptions_push,
    fs_existsSync, console_error.
  unfold_monad.
  destruct (preset =? "podman")%string.
  - cbn. destruct (existsSync W _); cbn.
    + eexists. split; [reflexivity |]. split.
      * unfold extends. cbn. eexists. right_nested. reflexivity.
      * cbn. eexists. split; [reflexivity |]. cbn. lia.
    + eexists. split; [reflexivity |]. split.
      * unfold extends. cbn. eexists. right_nested. reflexivity.
      * cbn. exists []. rewrite app_nil_r. split; [reflexivity |]. cbn. lia.
  - destruct ((preset =? "openshift")%string || (preset =? "microshift")%string); cbn.
    + eexists. split; [reflexivity |]. split.
      * unfold extends. cbn. eexists. right_nested. reflexivity.
      * cbn. eexists. split; [reflexivity |]. cbn. lia.
    + eexists. split; [reflexivity |]. split; [apply extends_refl |].
      exists []. rewrite app_nil_r. split; [reflexivity |]. cbn. lia.
Qed.

Lemma bind_podman_without_socket (st : State) :
  existsSync W
      (trace st ++ [EvShowInformationMessage podman_notice "OK"; EvExistsSync (podman_socket W)])
    = false ->
  exists st',
    bind_preset (R:=unit) W "podman" st = (Normal tt, st')
    /\ live st' = live st
    /\ trace st' =
         trace st ++
           [EvShowInformationMessage podman_notice "OK"; EvExistsSync (podman_socket W);
            EvConsoleError
              (Text ("Could not find crc podman socket at " ++ podman_socket W)%string)].
Proof.
  intros Hsocket.
  unfold bind_preset, showInformationMessage, registerPodmanConnection,
    fs_existsSync, console_error.
  unfold_monad. cbn in *. right_nested. rewrite Hsocket.
  eexists. split; [reflexivity |]. cbn. right_nested. auto.
Qed.

Lemma presetChanged_run (st st1 : State) (preset version : string) :
  readPreset W st = (Value preset, st1) ->
  crcVersion st = Some version ->
  presetChanged W st =
    match bind_preset (R:=unit) W preset (released (version_updated W preset version st1)) with
    | (Throws e, st') => (Raised e, st')
    | (OutOfFuel, st') => (Diverged, st')
    | (_, st') => (Value tt, st')
    end.
Proof.
  intros Hread Hversion.
  assert (Hv : crcVersion st1 = Some version).
  { rewrite readPreset_run in Hread.
    destruct (configGet_settles W _); inversion Hread; subst; exact Hversion. }
  unfold presetChanged, procedure, await.
  unfold bind at 1. rewrite Hread.
  unfold bind at 1. unfold updateProviderVersionWithPreset.
  unfold bind at 1. unfold gets at 1. rewrite Hv.
  unfold tell at 1. fold (version_updated W preset version st1).
  unfold bind at 1. rewrite release_binding_run.
  destruct (bind_preset W preset _) as [[a | r | e |] st']; reflexivity.
Qed.

End PresetFlow.

(** C6. The code at the input on which the claim fails.  A first
    [presetChanged] under the podman preset, with the socket present,
    registers the container connection and keeps its disposable in a local
    constant only; a second [presetChanged] under the openshift preset finds
    [connectionDisposable] undefined, disposes nothing and registers the
    Kubernetes connection: both connections are live.  With [crcVersion]
    undefined, under the podman preset and without a socket, the call throws
    the [TypeError] of reading [version]. *)
Lemma presetChanged_leaves_two_bindings :
  live (snd (presetChanged podman_then_openshift installed))
    = [(0, Podman_connection)]
  /\ live (snd (presetChanged podman_then_openshift
                 (snd (presetChanged podman_then_openshift installed))))
     = [(0, Podman_connection); (1, OpenShift_connection)]
  /\ fst (presetChanged podman_without_socket (initial false None))
     = Raised version_of_undefined.
Proof. repeat split; vm_compute; reflexivity. Qed.

(** X18. With [crcVersion] defined, [presetChanged] returns without
    throwing; the binding held in [connectionDisposable], if any, is disposed
    and [connectionDisposable] cleared before anything is registered, and the
    preset's connection is registered from that state; when every live
    binding was the one held in [connectionDisposable], at most one binding
    is live afterwards.  When the preset is podman and the socket path does
    not exist, no connection is registered and the absence is logged with
    [console.error]. *)
Theorem presetChanged_releases_tracked_binding (W : World) (st : State)
    (version : string) :
  crcVersion st = Some version ->
  exists preset st1 st',
    readPreset W st = (Value preset, st1)
    /\ presetChanged W st = (Value tt, st')
    /\ bind_preset (R:=unit) W preset (released (version_updated W preset version st1))
       = (Normal tt, st')
    /\ (forall h,
          connectionDisposable st = Some h ->
          connectionDisposable (released (version_updated W preset version st1)) = None
          /\ live (released (version_updated W preset version st1))
             = remove_handle h (live st)
          /\ exists pre post,
               trace st' = trace st ++ pre ++ EvDispose h :: post
               /\ existsb is_register pre = false)
    /\ (single_binding st -> List.length (live st') <= 1)
    /\ (preset = "podman"%string ->
        existsSync W
            (trace (released (version_updated W preset version st1)) ++
               [EvShowInformationMessage podman_notice "OK"; EvExistsSync (podman_socket W)])
          = false ->
        live st' = live (released (version_updated W preset version st1))
        /\ trace st' =
             trace (released (version_updated W preset version st1)) ++
               [EvShowInformationMessage podman_notice "OK"; EvExistsSync (podman_socket W);
                EvConsoleError
                  (Text ("Could not find crc podman socket at " ++ podman_socket W)%string)]).
Proof.
  intros Hversion.
  assert (Hread : exists preset st1 evs,
            readPreset W st = (Value preset, st1)
            /\ trace st1 = trace st ++ evs
            /\ existsb is_register evs = false
            /\ live st1 = live st
            /\ connectionDisposable st1 = connectionDisposable st).
  { rewrite readPreset_run.
    destruct (configGet_settles W _) as [preset | err].
    - exists preset, (emit EvConfigGet st), [EvConfigGet]. repeat split.
    - eexists. eexists. exists [EvConfigGet; EvConsoleLog "error while getting preset" err].
      split; [reflexivity |]. cbn. right_nested. repeat split. }
  destruct Hread as [preset [st1 [evs1 [Hread [Htrace1 [Hreg1 [Hlive1 Hd1]]]]]]].
  exists preset, st1.
  destruct (bind_preset_run W preset (released (version_updated W preset version st1)))
    as [st' [Hbind [[evs3 Htrace3] [new [Hlive Hlen]]]]].
  exists st'. split; [exact Hread |]. split.
  { rewrite (presetChanged_run W st st1 preset version Hread Hversion), Hbind.
    reflexivity. }
  split; [exact Hbind |]. split; [| split].
  - intros h Hd.
    assert (Hrel : released (version_updated W preset version st1)
                   = set_connectionDisposable None
                       (set_live (remove_handle h (live st1))
                          (emit (EvDispose h) (version_updated W preset version st1)))).
    { unfold released. cbn. rewrite Hd1, Hd. reflexivity. }
    rewrite Hrel in *. cbn in Htrace3. cbn.
    split; [reflexivity |]. split; [rewrite Hlive1; reflexivity |].
    exists (evs1 ++ [EvUpdateVersion (version ++ " (" ++ getPresetLabel W preset ++ ")")%string]),
      evs3.
    split.
    + rewrite Htrace3, Htrace1. right_nested. reflexivity.
    + rewrite existsb_app, Hreg1. reflexivity.
  - intros Hsingle.
    assert (Hnil : live (released (version_updated W preset version st1)) = []).
    { apply released_single. unfold single_binding in *. cbn.
      rewrite Hlive1, Hd1. exact Hsingle. }
    rewrite Hlive, Hnil. cbn. exact Hlen.
  - intros Hpodman Hsocket. subst preset.
    destruct (bind_podman_without_socket W _ Hsocket) as [st'' [Hbind' [Hl Ht]]].
    rewrite Hbind in Hbind'. inversion Hbind'; subst st''. auto.
Qed.

(** ** Pull secrets that are turned down *)

(** The model of the built-ins reads and prints these texts as expected. *)
Lemma JSON_model_on_shapes :
  JSON.parse secret_no_auths = inr parsed_no_auths
  /\ JSON.parse secret_empty_auths = inr parsed_empty_auths
  /\ JSON.parse secret_bare_entry = inr parsed_bare_entry
  /\ JSON.parse secret_valid = inr parsed_valid
  /\ JSON.stringify parsed_bare_entry = secret_bare_entry.
Proof. repeat split; vm_compute; reflexivity. Qed.

Lemma askAndStorePullSecret_invalid (W : World) (st : State) (secret : string)
    (err : Thrown) :
  showInputBox_answer W (trace (prompted st)) = Some secret ->
  secret <> EmptyString ->
  check_pull_secret (R:=bool) W secret (prompted st) = (Throws err, prompted st) ->
  askAndStorePullSecret W st =
    (Value false, emit (EvShowErrorMessage (Text (not_valid err))) (prompted st)).
Proof.
  intros Hanswer Hne Hcheck.
  unfold askAndStorePullSecret, function, showInputBox.
  unfold bind at 1. fold (prompted st). rewrite Hanswer.
  destruct secret as [| c secret'] eqn:Hsecret; [congruence |].
  rewrite <- Hsecret in *.
  unfold bind at 1. unfold try_catch at 1. rewrite Hcheck.
  reflexivity.
Qed.

Lemma check_rejected_shape (W : World) (st : State) (text : string) (s : json)
    (problem : string) :
  In (text, s, problem) (rejected_shapes W) ->
  JSON_parse W text = inr s ->
  text <> EmptyString
  /\ check_pull_secret (R:=bool) W text st = (Throws (ThrownString problem), st).
Proof.
  intros Hin Hparse.
  unfold rejected_shapes in Hin. cbn [In] in Hin.
  destruct Hin as [H | [H | [H | []]]]; inversion H; subst; clear H;
    (split; [discriminate |]);
    unfold check_pull_secret, parse; rewrite Hparse; reflexivity.
Qed.

(** C5. Given [{}], [{"auths":{}}] or [{"auths":{"r":{}}}],
    [askAndStorePullSecret] shows an error message that names the problem
    (the missing [auths] field, or the entry that lacks [auth] and
    [credsStore]) and returns [false] without calling
    [commander.pullSecretStore]; and whenever [pullSecretStore] is called,
    it is with the text the user entered, which parsed as JSON to a value
    with a non-empty [auths] every entry of which has [auth] or
    [credsStore]. *)
Theorem askAndStorePullSecret_rejects_invalid_shapes (W : World) (st : State) :
  (forall text s problem,
     In (text, s, problem) (rejected_shapes W) ->
     showInputBox_answer W (trace (prompted st)) = Some text ->
     JSON_parse W text = inr s ->
     exists st',
       askAndStorePullSecret W st = (Value false, st')
       /\ trace st' =
            trace st ++
              [EvShowInputBox;
               EvShowErrorMessage (Text (not_valid (ThrownString problem)))]
       /\ count is_store (trace st') = count is_store (trace st))
  /\
  (forall stored st2 evs secret,
     askAndStorePullSecret W st = (Value stored, st2) ->
     trace st2 = trace st ++ evs ->
     In (EvPullSecretStore secret) evs ->
     showInputBox_answer W (trace (prompted st)) = Some secret
     /\ exists s, JSON_parse W secret = inr s /\ valid_pull_secret s).
Proof.
  split.
  - intros text s problem Hin Hanswer Hparse.
    destruct (check_rejected_shape W (prompted st) text s problem Hin Hparse)
      as [Hne Hcheck].
    rewrite (askAndStorePullSecret_invalid W st text _ Hanswer Hne Hcheck).
    eexists. split; [reflexivity |].
    assert (Ht : trace (emit (EvShowErrorMessage (Text (not_valid (ThrownString problem))))
                          (prompted st))
                 = trace st ++
                     [EvShowInputBox;
                      EvShowErrorMessage (Text (not_valid (ThrownString problem)))])
      by (cbn; right_nested; reflexivity).
    split; [exact Ht |].
    rewrite Ht, count_app. cbn. lia.
  - intros stored st2 evs secret Hrun Htrace Hin.
    destruct (askAndStorePullSecret_returns W st) as [stored' [st2' [Hrun' Hhow]]].
    rewrite Hrun in Hrun'. inversion Hrun'; subst stored' st2'. clear Hrun'.
    destruct Hhow; cbn in Htrace; right_nested;
      apply app_inv_head in Htrace; subst evs; cbn in Hin;
      repeat (destruct Hin as [Hin | Hin]; try discriminate Hin);
      try contradiction;
      inversion Hin; subst; eauto.
Qed.

(** The claim of C8 fails on the code: when the daemon lacks a pull secret
    and the user cancels the prompt, [startCrc] throws to its caller. *)
Lemma startCrc_throws_to_its_caller :
  fst (startCrc prompt_cancelled 1 installed) = Raised could_not_start
  /\ trace (snd (startCrc prompt_cancelled 1 installed))
     = [EvLogUsage "crc.start"; EvStartSendingLogs; EvCommanderStart; EvShowInputBox].
Proof. split; vm_compute; reflexivity. Qed.

(** ** Instances *)

Lemma startCrc_outcome_follows_Status_witness :
  startCrc_setup cluster_runs (entered fresh_install)
    = (Normal tt, snd (startCrc_setup cluster_runs (entered fresh_install)))
  /\ start_settles cluster_runs
       (trace (start_called (snd (startCrc_setup cluster_runs (entered fresh_install)))))
     = Resolves "Running"%string
  /\ exists st',
       startCrc cluster_runs 1 fresh_install = (Value (Boolean true), st')
       /\ providerStatus st' = "started"%string
       /\ trace st' =
            trace (start_called (snd (startCrc_setup cluster_runs (entered fresh_install))))
              ++ [EvUpdateStatus "started"].
Proof.
  split; [reflexivity |]. split; [reflexivity |].
  apply (proj1 (startCrc_outcome_follows_Status cluster_runs 0 fresh_install
                  (snd (startCrc_setup cluster_runs (entered fresh_install)))
                  "Running" eq_refl eq_refl)).
  reflexivity.
Defined.

Lemma startCrc_setup_failure_releases_witness :
  isNeedSetup fresh_install = true
  /\ setUpCrc_settles setup_fails
       (trace fresh_install ++
          [EvLogUsage "crc.start"; EvSetSetupRunning true; EvSetUpCrc true])
     = Rejects setup_failed
  /\ exists st',
       startCrc setup_fails 1 fresh_install = (Value Undefined, st')
       /\ is_true Undefined = false
       /\ trace st' =
            trace fresh_install ++
              [EvLogUsage "crc.start"; EvSetSetupRunning true; EvSetUpCrc true;
               EvLoggerError setup_failed; EvUpdateStatus "stopped";
               EvSetSetupRunning false]
       /\ providerStatus st' = "stopped"%string
       /\ setupRunning st' = false.
Proof.
  split; [reflexivity |]. split; [reflexivity |].
  apply (proj1 (startCrc_setup_failure_releases setup_fails 0 fresh_install eq_refl)
           setup_failed).
  reflexivity.
Defined.

Lemma startCrc_retries_with_pull_secret_witness :
  startCrc_setup secret_supplied (entered installed) = (Normal tt, entered installed)
  /\ start_settles secret_supplied (trace (start_called (entered installed)))
     = Rejects pull_secret_missing
  /\ is_missing_pull_secret pull_secret_missing = true
  /\ exists st2,
       askAndStorePullSecret secret_supplied (start_called (entered installed))
         = (Value true, st2)
       /\ startCrc secret_supplied 2 installed = startCrc secret_supplied 1 st2
       /\ fst (startCrc secret_supplied 1 st2) = Value (Boolean true).
Proof.
  split; [reflexivity |]. split; [reflexivity |]. split; [reflexivity |].
  destruct (startCrc_retries_with_pull_secret secret_supplied 1 installed
              (entered installed) pull_secret_missing eq_refl eq_refl eq_refl)
    as [stored [st2 [Hask [Htrue _]]]].
  assert (Hrun : askAndStorePullSecret secret_supplied (start_called (entered installed))
                 = (Value true,
                    snd (askAndStorePullSecret secret_supplied
                           (start_called (entered installed)))))
    by (vm_compute; reflexivity).
  rewrite Hrun in Hask. inversion Hask. subst stored st2.
  eexists. split; [exact Hrun |].
  split; [exact (proj1 (Htrue eq_refl)) |].
  vm_compute. reflexivity.
Defined.

Lemma startCrc_connection_reset_is_success_witness :
  startCrc_setup connection_resets (entered installed) = (Normal tt, entered installed)
  /\ start_settles connection_resets (trace (start_called (entered installed)))
     = Rejects connection_reset
  /\ is_connection_reset connection_reset = true
  /\ exists st',
       startCrc connection_resets 1 installed = (Value (Boolean true), st')
       /\ providerStatus st' = "started"%string
       /\ trace st' = trace (start_called (entered installed)) ++ [EvUpdateStatus "started"].
Proof.
  split; [reflexivity |]. split; [reflexivity |]. split; [reflexivity |].
  apply (proj1 (startCrc_connection_reset_is_success connection_resets 0 installed
                  (entered installed) connection_reset eq_refl eq_refl)).
  reflexivity.
Defined.

Lemma askAndStorePullSecret_rejects_invalid_shapes_witness :
  In (secret_bare_entry, parsed_bare_entry, requires_auth bare_entry_entered parsed_bare_entry)
    (rejected_shapes bare_entry_entered)
  /\ showInputBox_answer bare_entry_entered (trace (prompted installed))
     = Some secret_bare_entry
  /\ JSON_parse bare_entry_entered secret_bare_entry = inr parsed_bare_entry
  /\ exists st',
       askAndStorePullSecret bare_entry_entered installed = (Value false, st')
       /\ trace st' =
            trace installed ++
              [EvShowInputBox;
               EvShowErrorMessage
                 (Text (not_valid
                          (ThrownString (requires_auth bare_entry_entered parsed_bare_entry))))]
       /\ count is_store (trace st') = count is_store (trace installed).
Proof.
  assert (Hin : In (secret_bare_entry, parsed_bare_entry,
                    requires_auth bare_entry_entered parsed_bare_entry)
                  (rejected_shapes bare_entry_entered))
    by (right; right; left; reflexivity).
  split; [exact Hin |]. split; [reflexivity |]. split; [vm_compute; reflexivity |].
  apply (proj1 (askAndStorePullSecret_rejects_invalid_shapes bare_entry_entered installed)
           secret_bare_entry parsed_bare_entry
           (requires_auth bare_entry_entered parsed_bare_entry) Hin).
  - reflexivity.
  - vm_compute. reflexivity.
Defined.

Lemma presetChanged_releases_tracked_binding_witness :
  crcVersion openshift_bound = Some "2.18"%string
  /\ connectionDisposable openshift_bound = Some 0
  /\ live openshift_bound = [(0, OpenShift_connection)]
  /\ exists st',
       presetChanged openshift_then_podman openshift_bound = (Value tt, st')
       /\ live st' = []
       /\ exists pre post,
            trace st' = trace openshift_bound ++ pre ++ EvDispose 0 :: post
            /\ existsb is_register pre = false.
Proof.
  split; [reflexivity |]. split; [reflexivity |]. split; [reflexivity |].
  destruct (presetChanged_releases_tracked_binding openshift_then_podman openshift_bound
              "2.18" eq_refl)
    as [preset [st1 [st' [Hread [Hrun [_ [Hheld [_ Hpodman]]]]]]]].
  assert (Hfirst : readPreset openshift_then_podman openshift_bound
                   = (Value "podman"%string, emit EvConfigGet openshift_bound))
    by reflexivity.
  rewrite Hfirst in Hread. inversion Hread. subst preset st1.
  destruct (Hheld 0 eq_refl) as [_ [Hlive Horder]].
  destruct (Hpodman eq_refl eq_refl) as [Hkept _].
  exists st'. split; [exact Hrun |]. split; [| exact Horder].
  rewrite Hkept, Hlive. reflexivity.
Defined.

Lemma readPreset_defaults_to_openshift_witness :
  configGet_settles daemon_unreachable (trace installed ++ [EvConfigGet])
    = Rejects connection_reset
  /\ readPreset daemon_unreachable installed
     = (Value "openshift"%string,
        emit (EvConsoleLog "error while getting preset" connection_reset)
          (emit EvConfigGet installed)).
Proof.
  split; [reflexivity |].
  apply (proj1 (readPreset_defaults_to_openshift daemon_unreachable installed)
           connection_reset).
  reflexivity.
Defined.

Lemma startCrc_throws_only_without_pull_secret_witness :
  startCrc prompt_cancelled 1 installed
    = (Raised could_not_start, snd (startCrc prompt_cancelled 1 installed))
  /\ could_not_start = could_not_start.
Proof.
  assert (H : startCrc prompt_cancelled 1 installed
              = (Raised could_not_start, snd (startCrc prompt_cancelled 1 installed)))
    by (vm_compute; reflexivity).
  split; [exact H |].
  exact (proj1 (startCrc_throws_only_without_pull_secret prompt_cancelled 1 installed)
           could_not_start (snd (startCrc prompt_cancelled 1 installed)) H).
Defined.

Lemma createCrcVm_returns_when_cluster_exists_witness :
  CrcStatus installed <> "No Cluster"%string
  /\ CrcStatus installed <> "Need Setup"%string
  /\ createCrcVm cluster_runs 1 installed = (Value tt, installed)
  /\ factory_initialize cluster_runs 1 installed = (Value tt, installed).
Proof.
  assert (H1 : CrcStatus installed <> "No Cluster"%string) by discriminate.
  assert (H2 : CrcStatus installed <> "Need Setup"%string) by discriminate.
  split; [exact H1 |]. split; [exact H2 |].
  exact (createCrcVm_returns_when_cluster_exists cluster_runs 1 installed H1 H2).
Defined.

(** * Further properties *)

(** ** Invariants through statements *)

Section Maintained.

Context {R A B : Type}.
Variable I : State -> Prop.

Lemma maintains_ret (a : A) : maintains (R:=R) I (ret a).
Proof. intros st H. exact H. Qed.

Lemma maintains_return (r : R) : maintains (A:=A) I (return_ r).
Proof. intros st H. exact H. Qed.

Lemma maintains_throw (e : Thrown) : maintains (R:=R) (A:=A) I (throw e).
Proof. intros st H. exact H. Qed.

Lemma maintains_gets (f : State -> A) : maintains (R:=R) I (gets f).
Proof. intros st H. exact H. Qed.

Lemma maintains_modify (f : State -> State) :
  (forall st, I st -> I (f st)) -> maintains (R:=R) I (modify f).
Proof. intros Hf st H. apply Hf, H. Qed.

Lemma maintains_tell (e : Event) :
  (forall st, I st -> I (emit e st)) -> maintains (R:=R) I (tell e).
Proof. intros He st H. apply He, H. Qed.

Lemma maintains_ask (e : Event) (settles : list Event -> Outcome A) :
  (forall st, I st -> I (emit e st)) -> maintains (R:=R) I (ask e settles).
Proof.
  intros He st H. unfold ask. destruct (settles _); apply He, H.
Qed.

Lemma maintains_bind (m : M R A) (k : A -> M R B) :
  maintains I m -> (forall a, maintains I (k a)) -> maintains I (bind m k).
Proof.
  intros Hm Hk st H. unfold bind. specialize (Hm st H).
  destruct (m st) as [[a | r | e |] st']; cbn in *; try assumption.
  apply Hk, Hm.
Qed.

Lemma maintains_try_catch (body : M R A) (handler : Thrown -> M R A) :
  maintains I body -> (forall e, maintains I (handler e)) ->
  maintains I (try_catch body handler).
Proof.
  intros Hb Hh st H. unfold try_catch. specialize (Hb st H).
  destruct (body st) as [[a | r | e |] st']; cbn in *; try assumption.
  apply Hh, Hb.
Qed.

Lemma maintains_await (f : Fn A) : maintains_fn I f -> maintains (R:=R) I (await f).
Proof.
  intros Hf st H. unfold await. specialize (Hf st H).
  destruct (f st) as [[a | e |] st']; assumption.
Qed.

End Maintained.

Lemma maintains_function {R : Type} (I : State -> Prop) (body : M R Empty_set) :
  maintains I body -> maintains_fn I (function body).
Proof.
  intros Hb st H. unfold function. specialize (Hb st H).
  destruct (body st) as [[[] | r | e |] st']; assumption.
Qed.

Lemma maintains_procedure (I : State -> Prop) (body : M unit unit) :
  maintains I body -> maintains_fn I (procedure body).
Proof.
  intros Hb st H. unfold procedure. specialize (Hb st H).
  destruct (body st) as [[a | r | e |] st']; assumption.
Qed.

Ltac keep_step :=
  first
    [ solve [auto]
    | apply maintains_ret | apply maintains_return | apply maintains_throw
    | apply maintains_gets
    | apply maintains_tell | apply maintains_ask | apply maintains_modify
    | apply maintains_await
    | apply maintains_try_catch; [| intro]
    | apply maintains_bind; [| intro]
    | match goal with
      | |- maintains _ (if ?b then _ else _) => destruct b
      | |- maintains _ (match ?x with _ => _ end) => destruct x
      end ].

Ltac keep := repeat keep_step.

(** ** What startCrc keeps *)

Section StartKeeps.

Variable W : World.
Variable I : State -> Prop.

(** [I] does not look at the trace nor at the provider status. *)
Hypothesis I_emit : forall e st, I st -> I (emit e st).
Hypothesis I_status : forall status st, I st -> I (set_providerStatus status st).

Lemma askAndStorePullSecret_maintains : maintains_fn I (askAndStorePullSecret W).
Proof.
  intros st H.
  destruct (askAndStorePullSecret_returns W st) as [stored [st2 [Hrun Hhow]]].
  rewrite Hrun. cbn [snd]. destruct Hhow; unfold prompted; auto.
Qed.

Hypothesis I_setup : maintains I (startCrc_setup W).

Lemma startCrc_try_maintains : maintains I (startCrc_try W).
Proof.
  unfold startCrc_try, startSendingLogs, commander_start, updateStatus,
    showErrorMessage.
  keep; intros; auto.
Qed.

Lemma startCrc_catch_maintains (again : Fn BooleanOrUndefined) (err : Thrown) :
  maintains_fn I again -> maintains I (startCrc_catch W again err).
Proof.
  intros Hagain. pose proof askAndStorePullSecret_maintains.
  unfold startCrc_catch, updateStatus, showErrorMessage, console_error.
  keep; intros; auto.
Qed.

Lemma startCrc_maintains (fuel : nat) : maintains_fn I (startCrc W fuel).
Proof.
  induction fuel as [| fuel IH].
  - intros st H. exact H.
  - cbn [startCrc]. apply maintains_function.
    pose proof startCrc_try_maintains.
    pose proof (fun err => startCrc_catch_maintains (startCrc W fuel) err IH).
    unfold logUsage. keep; intros; auto.
Qed.

End StartKeeps.

Lemma startCrc_setup_keeps_frame (W : World) (I : State -> Prop) :
  (forall e st, I st -> I (emit e st)) ->
  (forall status st, I st -> I (set_providerStatus status st)) ->
  (forall b st, I st -> I (set_isNeedSetup b st)) ->
  (forall b st, I st -> I (set_setupRunning b st)) ->
  maintains I (startCrc_setup W).
Proof.
  intros He Hs Hn Hr st H.
  unfold startCrc_setup, setSetupRunning, setUpCrc, needSetup, logger_error,
    updateStatus.
  unfold_monad. destruct (isNeedSetup st); [| exact H]. cbn.
  destruct (setUpCrc_settles W _); cbn.
  - destruct (needSetup_settles W _); cbn; auto 20.
  - auto 20.
Qed.

(** [startCrc] works on the flags, the provider status and the trace only:
    what a resumed [presetChanged] works on, it leaves alone. *)
Lemma startCrc_frame (W : World) (fuel : nat) (st : State) :
  bindings (snd (startCrc W fuel st)) = bindings st
  /\ installation (snd (startCrc W fuel st)) = installation st.
Proof.
  assert (H : maintains_fn
                (fun s => bindings s = bindings st /\ installation s = installation st)
                (startCrc W fuel)).
  { apply startCrc_maintains; try (intros; assumption).
    apply startCrc_setup_keeps_frame; intros; assumption. }
  apply H. split; reflexivity.
Qed.

(** X2. [startCrc] never leaves the setup-running flag set: from a state in
    which it is clear, every run ends with it clear, whether setup ran, threw
    or was skipped, and through every retry. *)
Theorem startCrc_leaves_setup_flag_clear (W : World) (fuel : nat) (st : State) :
  setupRunning st = false ->
  setupRunning (snd (startCrc W fuel st)) = false.
Proof.
  apply (startCrc_maintains W (fun s => setupRunning s = false)).
  - intros e s H. exact H.
  - intros status s H. exact H.
  - intros s H.
    destruct (isNeedSetup s) eqn:Hneed.
    + destruct (startCrc_setup W s) as [c s'] eqn:Hrun.
      exact (proj1 (startCrc_setup_releases W s s' c Hneed Hrun)).
    + rewrite (startCrc_setup_not_required W s Hneed). exact H.
Qed.

(** ** The result and the provider status *)

Section StartResult.

Variable W : World.

(** How the outer [try] block can end. *)
Lemma startCrc_try_ends (st st1 : State) (c : Completion BooleanOrUndefined unit) :
  startCrc_try W st = (c, st1) ->
  match c with
  | Normal _ => providerStatus st1 = "error"%string
  | Returned (Boolean true) => providerStatus st1 = "started"%string
  | Returned (Boolean false) => False
  | Returned Undefined => providerStatus st1 = "stopped"%string
  | Throws _ => True
  | OutOfFuel => False
  end.
Proof.
  unfold startCrc_try, startCrc_setup. unfold_host. unfold_monad.
  destruct (isNeedSetup st); cbn.
  - destruct (setUpCrc_settles W _); cbn.
    + destruct (needSetup_settles W _); cbn.
      * destruct (start_settles W _) as [Status | e]; cbn.
        -- destruct (Status =? "Running")%string;
             intros H; inversion H; reflexivity.
        -- intros H; inversion H; exact Logic.I.
      * intros H; inversion H; reflexivity.
    + intros H; inversion H; reflexivity.
  - destruct (start_settles W _) as [Status | e]; cbn.
    + destruct (Status =? "Running")%string; intros H; inversion H; reflexivity.
    + intros H; inversion H; exact Logic.I.
Qed.

Lemma startCrc_result_status (fuel : nat) :
  forall st r st',
    startCrc W fuel st = (Value r, st') ->
    match r with
    | Boolean true => providerStatus st' = "started"%string
    | Boolean false =>
        providerStatus st' = "error"%string \/ providerStatus st' = "stopped"%string
    | Undefined => providerStatus st' = "stopped"%string
    end.
Proof.
  induction fuel as [| fuel IH]; intros st r st'.
  - cbn. discriminate.
  - rewrite startCrc_run.
    destruct (startCrc_try W (entered st)) as [c st1] eqn:Htry.
    pose proof (startCrc_try_ends _ _ _ Htry) as Hend.
    destruct c as [a | r0 | err |]; [| | | contradiction].
    + intros H; inversion H; subst. left. exact Hend.
    + intros H; inversion H; subst. destruct r as [| []]; auto. contradiction.
    + destruct (is_missing_pull_secret err) eqn:Hm.
      * destruct (askAndStorePullSecret_returns W st1) as [stored [st2 [Hask _]]].
        rewrite startCrc_catch_missing with (stored := stored) (st2 := st2)
          by assumption.
        destruct stored; [| discriminate].
        unfold returned.
        destruct (startCrc W fuel st2) as [[r1 | e1 |] st3] eqn:Hagain;
          try discriminate.
        intros H; inversion H; subst. eapply IH. eassumption.
      * destruct (is_connection_reset err) eqn:Hreset.
        -- rewrite startCrc_catch_reset by assumption.
           intros H; inversion H; subst. reflexivity.
        -- rewrite startCrc_catch_other by assumption.
           intros H; inversion H; subst. right. reflexivity.
Qed.

End StartResult.

(** X3. The value [startCrc] returns agrees with the status it gave the
    provider: [true] is returned only with the status ["started"], [false]
    only with ["error"] or ["stopped"], and [undefined] only with
    ["stopped"]. *)
Theorem startCrc_result_agrees_with_status (W : World) (fuel : nat)
    (st st' : State) (r : BooleanOrUndefined) :
  startCrc W fuel st = (Value r, st') ->
  (is_true r = true -> providerStatus st' = "started"%string)
  /\ (is_true r = false ->
      providerStatus st' = "error"%string \/ providerStatus st' = "stopped"%string)
  /\ (r = Undefined -> providerStatus st' = "stopped"%string).
Proof.
  intros Hrun. pose proof (startCrc_result_status W fuel st r st' Hrun) as H.
  destruct r as [| []]; cbn; repeat split; intros; try discriminate; auto.
Qed.

(** ** Retries and stored pull secrets *)

Section Retries.

Variable W : World.

(** The outer [try] block calls [commander.start()] at most once and never
    stores a pull secret. *)
Lemma startCrc_try_counts (st st1 : State) (c : Completion BooleanOrUndefined unit) :
  startCrc_try W st = (c, st1) ->
  count is_store (trace st1) = count is_store (trace st)
  /\ count is_start (trace st1) <= S (count is_start (trace st)).
Proof.
  unfold startCrc_try, startCrc_setup. unfold_host. unfold_monad.
  destruct (isNeedSetup st); cbn.
  - destruct (setUpCrc_settles W _); cbn.
    + destruct (needSetup_settles W _); cbn.
      * destruct (start_settles W _) as [Status | e]; cbn.
        -- destruct (Status =? "Running")%string;
             intros H; inversion H; cbn; unfold count;
             repeat rewrite filter_app; repeat rewrite length_app; cbn; lia.
        -- intros H; inversion H; cbn; unfold count;
             repeat rewrite filter_app; repeat rewrite length_app; cbn; lia.
      * intros H; inversion H; cbn; unfold count;
          repeat rewrite filter_app; repeat rewrite length_app; cbn; lia.
    + intros H; inversion H; cbn; unfold count;
        repeat rewrite filter_app; repeat rewrite length_app; cbn; lia.
  - destruct (start_settles W _) as [Status | e]; cbn.
    + destruct (Status =? "Running")%string;
        intros H; inversion H; cbn; unfold count;
        repeat rewrite filter_app; repeat rewrite length_app; cbn; lia.
    + intros H; inversion H; cbn; unfold count;
        repeat rewrite filter_app; repeat rewrite length_app; cbn; lia.
Qed.

(** A run of [askAndStorePullSecret] that returns [true] has stored one
    secret; no run takes a stored secret away. *)
Lemma Asked_store_count (st st2 : State) (stored : bool) :
  Asked W st stored st2 ->
  count is_store (trace st) <= count is_store (trace st2)
  /\ (stored = true -> count is_store (trace st2) = S (count is_store (trace st))).
Proof.
  intros H. destruct H; cbn; unfold count;
    repeat rewrite filter_app; repeat rewrite length_app; cbn;
    (split; [lia | intros; try discriminate; lia]).
Qed.

Lemma startCrc_start_calls (fuel : nat) :
  forall st,
    count is_start (trace (snd (startCrc W fuel st))) + count is_store (trace st)
    <= S (count is_start (trace st) + count is_store (trace (snd (startCrc W fuel st)))).
Proof.
  induction fuel as [| fuel IH]; intros st.
  - cbn. lia.
  - rewrite startCrc_run.
    destruct (startCrc_try W (entered st)) as [c st1] eqn:Htry.
    destruct (startCrc_try_counts _ _ _ Htry) as [Hstore Hstart].
    assert (Hentered : count is_store (trace (entered st)) = count is_store (trace st)
                       /\ count is_start (trace (entered st)) = count is_start (trace st)).
    { cbn. unfold count. repeat rewrite filter_app. repeat rewrite length_app.
      cbn. lia. }
    destruct Hentered as [He1 He2]. rewrite He1 in Hstore. rewrite He2 in Hstart.
    destruct c as [a | r0 | err |]; cbn [snd]; try lia.
    destruct (is_missing_pull_secret err) eqn:Hm.
    + destruct (askAndStorePullSecret_returns W st1) as [stored [st2 [Hask Hhow]]].
      rewrite startCrc_catch_missing with (stored := stored) (st2 := st2)
        by assumption.
      destruct (Asked_store_count _ _ _ Hhow) as [Hle Hplus].
      pose proof (Asked_no_start W _ _ _ Hhow) as Hsame.
      destruct stored.
      * specialize (Hplus eq_refl). specialize (IH st2).
        unfold returned.
        destruct (startCrc W fuel st2) as [[r1 | e1 |] st3]; cbn [snd] in *; lia.
      * cbn [snd]. lia.
    + destruct (is_connection_reset err) eqn:Hreset.
      * rewrite startCrc_catch_reset by assumption. cbn [snd].
        unfold marked_started. cbn. unfold count in *.
        repeat rewrite filter_app. repeat rewrite length_app. cbn. lia.
      * rewrite startCrc_catch_other by assumption. cbn [snd].
        unfold shown_and_stopped. cbn. unfold count in *.
        repeat rewrite filter_app. repeat rewrite length_app. cbn. lia.
Qed.

End Retries.

(** X4. [startCrc] calls [commander.start()] again only after a pull secret
    was handed to the daemon: among the calls of one run, the start calls
    number at most one more than the [pullSecretStore] calls. *)
Theorem startCrc_retries_need_stored_secret (W : World) (fuel : nat) (st : State)
    (evs : list Event) :
  trace (snd (startCrc W fuel st)) = trace st ++ evs ->
  count is_start evs <= S (count is_store evs).
Proof.
  intros Htrace. pose proof (startCrc_start_calls W fuel st) as H.
  rewrite Htrace in H. repeat rewrite count_app in H. lia.
Qed.

(** X5. [startCrc] does not look at what [setUpCrc] returned: when setup is
    required and [setUpCrc] resolves, with [true] or with [false], and
    [needSetup] resolves, whatever the refreshed flag, [commander.start()] is
    called and decides the result. *)
Theorem startCrc_starts_whatever_setup_returned (W : World) (fuel : nat)
    (st : State) (done again : bool) (Status : string) :
  isNeedSetup st = true ->
  setUpCrc_settles W
      (trace st ++ [EvLogUsage "crc.start"; EvSetSetupRunning true; EvSetUpCrc true])
    = Resolves done ->
  needSetup_settles W
      (trace st ++ [EvLogUsage "crc.start"; EvSetSetupRunning true; EvSetUpCrc true;
                    EvNeedSetup])
    = Resolves again ->
  start_settles W
      (trace st ++ [EvLogUsage "crc.start"; EvSetSetupRunning true; EvSetUpCrc true;
                    EvNeedSetup; EvSetSetupRunning false; EvStartSendingLogs;
                    EvCommanderStart])
    = Resolves Status ->
  exists st',
    startCrc W (S fuel) st = (Value (Boolean (Status =? "Running")%string), st')
    /\ isNeedSetup st' = again
    /\ count is_start (trace st') = S (count is_start (trace st)).
Proof.
  intros Hneed Hsetup Hcheck Hstart.
  destruct (startCrc_setup_completes W (entered st) done again) as [st0 [Hrun [Ht [Hflag _]]]].
  - exact Hneed.
  - cbn. right_nested. exact Hsetup.
  - cbn. right_nested. exact Hcheck.
  - assert (Hstart' : start_settles W (trace (start_called st0)) = Resolves Status).
    { rewrite trace_start_called, Ht. cbn. right_nested. exact Hstart. }
    assert (Hcount : count is_start (trace (start_called st0))
                     = S (count is_start (trace st))).
    { rewrite trace_start_called, Ht. cbn. unfold count.
      repeat rewrite filter_app. repeat rewrite length_app. cbn. lia. }
    rewrite startCrc_run, (startCrc_try_resolved W _ _ _ Hrun Hstart').
    destruct (Status =? "Running")%string; eexists; (split; [reflexivity |]);
      (split; [exact Hflag |]); cbn in *; unfold count in *;
      repeat rewrite filter_app in *; repeat rewrite length_app in *; cbn in *; lia.
Qed.

(** X6. Both start callbacks drop what [startCrc] returned: they resolve
    whenever [startCrc] returns, also when it returned [false] or
    [undefined], and they reject only with "Could not start without
    pullsecret!". *)
Theorem start_callbacks_drop_the_result (W : World) (fuel : nat) (st : State) :
  (forall r st',
     startCrc W fuel (status_set "starting" st) = (Value r, st') ->
     providerLifecycle_start W fuel st = (Value tt, st')
     /\ connectionLifecycle_start W fuel st = (Value tt, st'))
  /\
  (forall e st',
     providerLifecycle_start W fuel st = (Raised e, st')
     \/ connectionLifecycle_start W fuel st = (Raised e, st') ->
     e = could_not_start).
Proof.
  split.
  - intros r st' Hrun.
    unfold providerLifecycle_start, connectionLifecycle_start.
    rewrite start_callback_run, Hrun. split; reflexivity.
  - intros e st' H.
    assert (H' : providerLifecycle_start W fuel st = (Raised e, st'))
      by (destruct H as [H | H]; exact H).
    unfold providerLifecycle_start in H'. rewrite start_callback_run in H'.
    destruct (startCrc W fuel (status_set "starting" st)) as [[r | e' |] st''] eqn:Hrun;
      try discriminate.
    inversion H'; subst. eapply startCrc_raises. eassumption.
Qed.

(** ** askAndStorePullSecret, whatever is entered *)

Section Asking.

Variable W : World.

Lemma get_defined (v x : value) (k k' : string) :
  get v k = inr x -> exists x', get v k' = inr x'.
Proof.
  unfold get. destruct v as [[] |]; try discriminate; eauto.
Qed.

Lemma check_auths_complete (R : Type) (s : json) (auths : value) (ks : list string)
    (st : State) :
  (forall a, In a ks -> entry_ok auths a) ->
  check_auths (R:=R) W s auths ks st = (Normal tt, st).
Proof.
  induction ks as [| a rest IH]; intros Hok; [reflexivity |].
  cbn [check_auths]. unfold read, bind, throw, ret, skip.
  destruct (Hok a (or_introl eq_refl)) as [aut [Haut Hfield]].
  rewrite Haut.
  assert (Hrest : check_auths (R:=R) W s auths rest st = (Normal tt, st))
    by (apply IH; intros a' Hin; apply Hok; right; exact Hin).
  destruct Hfield as [[v [Hget Htruthy]] | [v [Hget Htruthy]]].
  - rewrite Hget, Htruthy. exact Hrest.
  - destruct (get_defined aut v "credsStore" "auth" Hget) as [auth Hauth].
    rewrite Hauth. destruct (truthy auth); [exact Hrest |].
    rewrite Hget, Htruthy. exact Hrest.
Qed.

Lemma check_pull_secret_complete (R : Type) (secret : string) (s : json) (st : State) :
  JSON_parse W secret = inr s ->
  valid_pull_secret s ->
  check_pull_secret (R:=R) W secret st = (Normal tt, st).
Proof.
  intros Hparse [auths [Hauths [Htruthy [Hkeys Hentries]]]].
  unfold check_pull_secret, parse, read, bind, throw, ret.
  rewrite Hparse, Hauths, Htruthy.
  assert (Hlen : Nat.ltb 0 (List.length (Object_keys auths)) = true).
  { destruct (Object_keys auths); [congruence | reflexivity]. }
  rewrite Hlen. cbn [andb].
  apply check_auths_complete. exact Hentries.
Qed.

Lemma askAndStorePullSecret_valid (st : State) (secret : string) (s : json) :
  showInputBox_answer W (trace (prompted st)) = Some secret ->
  secret <> EmptyString ->
  JSON_parse W secret = inr s ->
  valid_pull_secret s ->
  askAndStorePullSecret W st =
    match pullSecretStore_settles W (trace (prompted st) ++ [EvPullSecretStore secret]) with
    | Resolves _ => (Value true, emit (EvPullSecretStore secret) (prompted st))
    | Rejects error =>
        (Value false,
         emit (EvLoggerError error)
           (emit (EvConsoleError (Caught error))
              (emit (EvPullSecretStore secret) (prompted st))))
    end.
Proof.
  intros Hanswer Hne Hparse Hvalid.
  unfold askAndStorePullSecret, function, showInputBox.
  unfold bind at 1. fold (prompted st). rewrite Hanswer.
  destruct secret as [| c secret'] eqn:Hsecret; [congruence |].
  rewrite <- Hsecret in *.
  unfold bind at 1. unfold try_catch at 1.
  rewrite (check_pull_secret_complete bool secret s (prompted st) Hparse Hvalid).
  unfold commander_pullSecretStore, ask, console_error, logger_error, tell,
    bind, return_, try_catch. cbn.
  destruct (pullSecretStore_settles W _) as [[] | error]; reflexivity.
Qed.

End Asking.

(** X7. [askAndStorePullSecret] never throws: a cancelled prompt, a text
    that is not JSON, an entry that is [null] and a daemon that refuses the
    secret all end in a returned boolean.  It shows the input box exactly
    once, calls [pullSecretStore] at most once, and changes neither the
    provider status nor the setup flags nor the bindings. *)
Theorem askAndStorePullSecret_never_throws (W : World) (st : State) :
  exists stored st2,
    askAndStorePullSecret W st = (Value stored, st2)
    /\ count is_prompt (trace st2) = S (count is_prompt (trace st))
    /\ count is_store (trace st2) <= S (count is_store (trace st))
    /\ bindings st2 = bindings st
    /\ providerStatus st2 = providerStatus st
    /\ isNeedSetup st2 = isNeedSetup st
    /\ setupRunning st2 = setupRunning st.
Proof.
  destruct (askAndStorePullSecret_returns W st) as [stored [st2 [Hrun Hhow]]].
  exists stored, st2. split; [exact Hrun |].
  destruct Hhow; cbn; unfold count;
    repeat rewrite filter_app; repeat rewrite length_app; cbn;
    repeat split; lia.
Qed.

(** X8. A non-empty text that parses to a value of the valid shape is handed
    to [commander.pullSecretStore] as the user typed it; the result is [true]
    when the daemon stores it, and when the daemon refuses, the error goes to
    [console.error] and [logger.error] and the result is [false]. *)
Theorem askAndStorePullSecret_forwards_valid_secret (W : World) (st : State)
    (secret : string) (s : json) :
  showInputBox_answer W (trace (prompted st)) = Some secret ->
  secret <> EmptyString ->
  JSON_parse W secret = inr s ->
  valid_pull_secret s ->
  (pullSecretStore_settles W (trace st ++ [EvShowInputBox; EvPullSecretStore secret])
     = Resolves tt ->
   exists st2,
     askAndStorePullSecret W st = (Value true, st2)
     /\ trace st2 = trace st ++ [EvShowInputBox; EvPullSecretStore secret])
  /\
  (forall error,
     pullSecretStore_settles W (trace st ++ [EvShowInputBox; EvPullSecretStore secret])
       = Rejects error ->
     exists st2,
       askAndStorePullSecret W st = (Value false, st2)
       /\ trace st2 =
            trace st ++ [EvShowInputBox; EvPullSecretStore secret;
                         EvConsoleError (Caught error); EvLoggerError error]).
Proof.
  intros Hanswer Hne Hparse Hvalid.
  rewrite (askAndStorePullSecret_valid W st secret s Hanswer Hne Hparse Hvalid).
  cbn [trace emit prompted]. right_nested.
  split.
  - intros Hstore. rewrite Hstore. eexists. split; [reflexivity |].
    cbn. right_nested. reflexivity.
  - intros error Hstore. rewrite Hstore. eexists. split; [reflexivity |].
    cbn. right_nested. reflexivity.
Qed.

(** X9. What the user is told about a text that is turned down: when
    [JSON.parse] throws, the thrown error; when the text is the JSON [null],
    the [TypeError] of reading [auths]; when the parsed value has no truthy
    [auths] or an [auths] without keys (a number, a string, an array, an
    object without the field), that the [auths] field is missing.  In each
    case the result is [false] and the daemon is not called. *)
Theorem askAndStorePullSecret_names_the_problem (W : World) (st : State)
    (secret : string) :
  showInputBox_answer W (trace (prompted st)) = Some secret ->
  secret <> EmptyString ->
  let rejected_with err :=
    askAndStorePullSecret W st =
      (Value false, emit (EvShowErrorMessage (Text (not_valid err))) (prompted st)) in
  (forall e, JSON_parse W secret = inl e -> rejected_with e)
  /\ (JSON_parse W secret = inr JNull ->
      rejected_with (TypeError "Cannot read properties of null (reading 'auths')"))
  /\ (forall s auths,
        JSON_parse W secret = inr s ->
        get (Some s) "auths" = inr auths ->
        truthy auths = false \/ Object_keys auths = [] ->
        rejected_with (ThrownString missing_auths)).
Proof.
  intros Hanswer Hne rejected_with. unfold rejected_with.
  split; [| split].
  - intros e Hparse.
    apply (askAndStorePullSecret_invalid W st secret e Hanswer Hne).
    unfold check_pull_secret, parse. rewrite Hparse. reflexivity.
  - intros Hparse.
    apply (askAndStorePullSecret_invalid W st secret _ Hanswer Hne).
    unfold check_pull_secret, parse. rewrite Hparse. reflexivity.
  - intros s auths Hparse Hauths Hmissing.
    apply (askAndStorePullSecret_invalid W st secret _ Hanswer Hne).
    unfold check_pull_secret, parse, read, bind, throw, ret.
    rewrite Hparse, Hauths.
    destruct Hmissing as [Hfalsy | Hnokeys].
    + rewrite Hfalsy. reflexivity.
    + rewrite Hnokeys. cbn. rewrite andb_false_r. reflexivity.
Qed.

(** ** presetChanged, preset by preset *)

Section Presets.

Variable W : World.

Lemma readPreset_state (st st1 : State) (preset : string) :
  readPreset W st = (Value preset, st1) ->
  st1 = emit EvConfigGet st
  \/ exists err,
       st1 = emit (EvConsoleLog "error while getting preset" err) (emit EvConfigGet st).
Proof.
  rewrite readPreset_run.
  destruct (configGet_settles W _); intros H; inversion H; eauto.
Qed.

Lemma readPreset_returns (st : State) :
  exists preset st1, readPreset W st = (Value preset, st1).
Proof.
  rewrite readPreset_run. destruct (configGet_settles W _); eauto.
Qed.

Lemma presetChanged_without_version (st st1 : State) (preset : string) :
  readPreset W st = (Value preset, st1) ->
  crcVersion st = None ->
  presetChanged W st = (Raised version_of_undefined, st1).
Proof.
  intros Hread Hversion.
  assert (Hv : crcVersion st1 = None).
  { destruct (readPreset_state _ _ _ Hread) as [-> | [err ->]]; exact Hversion. }
  unfold presetChanged, procedure, await.
  unfold bind at 1. rewrite Hread.
  unfold bind at 1. unfold updateProviderVersionWithPreset.
  unfold bind at 1. unfold gets at 1. rewrite Hv. reflexivity.
Qed.

(** The state from which the connection of the preset is registered. *)
Lemma released_fields (st st1 : State) (preset version : string) :
  readPreset W st = (Value preset, st1) ->
  live (released (version_updated W preset version st1))
    = match connectionDisposable st with
      | Some h => remove_handle h (live st)
      | None => live st
      end
  /\ connectionDisposable (released (version_updated W preset version st1)) = None
  /\ subscriptions (released (version_updated W preset version st1)) = subscriptions st
  /\ next_handle (released (version_updated W preset version st1)) = next_handle st
  /\ pending (released (version_updated W preset version st1)) = pending st.
Proof.
  intros Hread.
  destruct (readPreset_state _ _ _ Hread) as [-> | [err ->]];
    unfold released; cbn; destruct (connectionDisposable st) eqn:Hheld; cbn;
    rewrite ?Hheld; repeat split; reflexivity.
Qed.

Lemma bind_cluster_preset (preset : string) (st : State) :
  is_cluster_preset preset = true ->
  bind_preset (R:=unit) W preset st =
    (Normal tt,
     set_subscriptions (subscriptions st ++ [next_handle st])
       (emit (EvSubscribe (next_handle st))
          (set_connectionDisposable (Some (next_handle st))
             (emit (EvRegisterKubernetes (next_handle st)
                      (KubernetesConnection (getPresetLabel W preset)
                         "https://api.crc.testing:6443"))
                (set_next_handle (S (next_handle st))
                   (set_live
                      (live st ++
                         [(next_handle st,
                           KubernetesConnection (getPresetLabel W preset)
                             "https://api.crc.testing:6443")]) st)))))).
Proof.
  unfold is_cluster_preset. intros H.
  apply andb_true_iff in H. destruct H as [Hp Hc].
  apply negb_true_iff in Hp.
  unfold bind_preset. rewrite Hp, Hc. reflexivity.
Qed.

Lemma bind_unknown_preset (preset : string) (st : State) :
  (preset =? "podman")%string = false ->
  is_cluster_preset preset = false ->
  bind_preset (R:=unit) W preset st = (Normal tt, st).
Proof.
  unfold is_cluster_preset. intros Hp H. rewrite Hp in H. cbn in H.
  unfold bind_preset. rewrite Hp, H. reflexivity.
Qed.

Lemma bind_podman_with_socket (st : State) :
  existsSync W
      (trace st ++ [EvShowInformationMessage podman_notice "OK";
                    EvExistsSync (podman_socket W)])
    = true ->
  exists st',
    bind_preset (R:=unit) W "podman" st = (Normal tt, st')
    /\ live st' =
         live st ++ [(next_handle st, ContainerConnection "Podman" "podman" (podman_socket W))]
    /\ connectionDisposable st' = connectionDisposable st
    /\ subscriptions st' = subscriptions st ++ [next_handle st].
Proof.
  intros Hsocket.
  unfold bind_preset, showInformationMessage, registerPodmanConnection,
    registerContainerProviderConnection, register, subscriptions_push,
    fs_existsSync.
  unfold_monad. cbn in *. right_nested. rewrite Hsocket.
  eexists. split; [reflexivity |]. cbn. auto.
Qed.

Lemma remove_handle_keeps (h h' : nat) (c : Connection) (l : list (nat * Connection)) :
  In (h', c) l -> h' <> h -> In (h', c) (remove_handle h l).
Proof.
  intros Hin Hne. unfold remove_handle. apply filter_In. split; [exact Hin |].
  cbn. apply negb_true_iff, Nat.eqb_neq. exact Hne.
Qed.

End Presets.

(** X10. With [crcVersion] defined and the preset openshift or microshift
    (also when it is the fallback after a failed query), [presetChanged]
    registers one Kubernetes connection, named after the preset and at
    [https://api.crc.testing:6443], holds its disposable in
    [connectionDisposable] and pushes it to the subscriptions; the connection
    held before is the only one removed; and if before every live binding was
    the held one, so it is afterwards. *)
Theorem presetChanged_binds_cluster (W : World) (st st1 : State)
    (preset version : string) :
  crcVersion st = Some version ->
  readPreset W st = (Value preset, st1) ->
  is_cluster_preset preset = true ->
  exists st',
    presetChanged W st = (Value tt, st')
    /\ connectionDisposable st' = Some (next_handle st)
    /\ live st' =
         match connectionDisposable st with
         | Some h => remove_handle h (live st)
         | None => live st
         end ++
         [(next_handle st,
           KubernetesConnection (getPresetLabel W preset) "https://api.crc.testing:6443")]
    /\ subscriptions st' = subscriptions st ++ [next_handle st]
    /\ (single_binding st -> single_binding st').
Proof.
  intros Hversion Hread Hcluster.
  destruct (released_fields W st st1 preset version Hread)
    as [Hlive [Hd [Hsubs [Hnext _]]]].
  rewrite (presetChanged_run W st st1 preset version Hread Hversion).
  rewrite (bind_cluster_preset W preset _ Hcluster).
  eexists. split; [reflexivity |]. cbn.
  rewrite Hlive, Hsubs, Hnext.
  split; [reflexivity |]. split; [reflexivity |]. split; [reflexivity |].
  intros Hsingle. right.
  exists (next_handle st),
    (KubernetesConnection (getPresetLabel W preset) "https://api.crc.testing:6443").
  split; [| reflexivity].
  destruct Hsingle as [Hnil | [h [c [Hl Hh]]]].
  - rewrite Hnil. destruct (connectionDisposable st); reflexivity.
  - rewrite Hh, Hl. cbn. rewrite Nat.eqb_refl. reflexivity.
Qed.

(** X11. With the preset podman and the socket present, [presetChanged]
    registers a container connection at the socket path and pushes its
    disposable to the subscriptions, but leaves [connectionDisposable]
    undefined: the connection is live and not held. *)
Theorem presetChanged_registers_podman_unheld (W : World) (st st1 : State)
    (version : string) :
  crcVersion st = Some version ->
  readPreset W st = (Value "podman"%string, st1) ->
  existsSync W
      (trace (released (version_updated W "podman" version st1)) ++
         [EvShowInformationMessage podman_notice "OK"; EvExistsSync (podman_socket W)])
    = true ->
  exists st',
    presetChanged W st = (Value tt, st')
    /\ connectionDisposable st' = None
    /\ In (next_handle st, ContainerConnection "Podman" "podman" (podman_socket W))
         (live st')
    /\ subscriptions st' = subscriptions st ++ [next_handle st].
Proof.
  intros Hversion Hread Hsocket.
  destruct (released_fields W st st1 "podman" version Hread)
    as [Hlive [Hd [Hsubs [Hnext _]]]].
  destruct (bind_podman_with_socket W _ Hsocket) as [st' [Hbind [Hl [Hc Hs]]]].
  rewrite (presetChanged_run W st st1 "podman" version Hread Hversion), Hbind.
  exists st'. split; [reflexivity |].
  rewrite Hc, Hd, Hl, Hs, Hsubs, Hnext.
  split; [reflexivity |]. split; [| reflexivity].
  apply in_or_app. right. left. reflexivity.
Qed.

(** X12. [presetChanged] disposes nothing but the connection held in
    [connectionDisposable]: every other live connection is still live
    afterwards, whatever the preset and whether or not the call throws. *)
Theorem presetChanged_disposes_only_held (W : World) (st : State) (h : nat)
    (c : Connection) :
  In (h, c) (live st) ->
  connectionDisposable st <> Some h ->
  In (h, c) (live (snd (presetChanged W st))).
Proof.
  intros Hin Hheld.
  destruct (readPreset_returns W st) as [preset [st1 Hread]].
  destruct (crcVersion st) as [version |] eqn:Hversion.
  - destruct (released_fields W st st1 preset version Hread) as [Hlive _].
    destruct (bind_preset_run W preset (released (version_updated W preset version st1)))
      as [st' [Hbind [_ [new [Hl _]]]]].
    rewrite (presetChanged_run W st st1 preset version Hread Hversion), Hbind.
    cbn [snd]. rewrite Hl, Hlive. apply in_or_app. left.
    destruct (connectionDisposable st) as [h' |]; [| exact Hin].
    apply remove_handle_keeps; [exact Hin | congruence].
  - rewrite (presetChanged_without_version W st st1 preset Hread Hversion).
    cbn [snd].
    destruct (readPreset_state W _ _ _ Hread) as [-> | [err ->]]; exact Hin.
Qed.

(** X13. With a preset that is neither podman nor openshift nor microshift,
    [presetChanged] releases the held binding and registers nothing in its
    place: after the version update the only call made is the disposal of the
    held binding, if there is one. *)
Theorem presetChanged_unknown_preset_unbinds (W : World) (st st1 : State)
    (preset version : string) :
  crcVersion st = Some version ->
  readPreset W st = (Value preset, st1) ->
  preset <> "podman"%string ->
  preset <> "openshift"%string ->
  preset <> "microshift"%string ->
  exists st',
    presetChanged W st = (Value tt, st')
    /\ connectionDisposable st' = None
    /\ live st' =
         match connectionDisposable st with
         | Some h => remove_handle h (live st)
         | None => live st
         end
    /\ subscriptions st' = subscriptions st
    /\ existsb is_register (skipn (List.length (trace st1)) (trace st')) = false
    /\ trace st' =
         trace st1 ++
           EvUpdateVersion (version ++ " (" ++ getPresetLabel W preset ++ ")")%string
           :: match connectionDisposable st with
              | Some h => [EvDispose h]
              | None => []
              end.
Proof.
  intros Hversion Hread Hp Ho Hm.
  apply String.eqb_neq in Hp. apply String.eqb_neq in Ho. apply String.eqb_neq in Hm.
  assert (Hcluster : is_cluster_preset preset = false)
    by (unfold is_cluster_preset; rewrite Hp, Ho, Hm; reflexivity).
  destruct (released_fields W st st1 preset version Hread)
    as [Hlive [Hd [Hsubs _]]].
  rewrite (presetChanged_run W st st1 preset version Hread Hversion).
  rewrite (bind_unknown_preset W preset _ Hp Hcluster).
  eexists. split; [reflexivity |].
  split; [exact Hd |]. split; [exact Hlive |]. split; [exact Hsubs |].
  assert (Hsame : connectionDisposable st1 = connectionDisposable st).
  { destruct (readPreset_state W _ _ _ Hread) as [-> | [err ->]]; reflexivity. }
  unfold released, version_updated. cbn. rewrite Hsame.
  destruct (connectionDisposable st); cbn; right_nested;
    (split; [rewrite skipn_app, skipn_all, Nat.sub_diag; reflexivity | reflexivity]).
Qed.

(** X14. With [crcVersion] undefined, [presetChanged] throws the
    [TypeError] of reading [version] right after the preset was read: the
    held binding is not disposed, nothing is registered, and the only calls
    made are the configuration query and the log of its failure. *)
Theorem presetChanged_without_version_throws (W : World) (st : State) :
  crcVersion st = None ->
  exists st',
    presetChanged W st = (Raised version_of_undefined, st')
    /\ bindings st' = bindings st
    /\ (trace st' = trace st ++ [EvConfigGet]
        \/ exists err,
             trace st' =
               trace st ++ [EvConfigGet; EvConsoleLog "error while getting preset" err]).
Proof.
  intros Hversion.
  destruct (readPreset_returns W st) as [preset [st1 Hread]].
  exists st1. split.
  - exact (presetChanged_without_version W st st1 preset Hread Hversion).
  - destruct (readPreset_state W _ _ _ Hread) as [-> | [err ->]].
    + split; [reflexivity |]. left. reflexivity.
    + split; [reflexivity |]. right. exists err. cbn. right_nested. reflexivity.
Qed.

(** ** createCrcVm and the connection factory *)

(** X15. In the status ["Need Setup"], [createCrcVm] runs the setup without
    interaction and does not start a cluster whose setup did not finish: when
    [setUpCrc] returns [false] it throws "<product> not initialized.", and an
    error thrown by [setUpCrc] or by [needSetup] is not caught here but
    thrown on; in each case [commander.start()] is not called and the
    provider status is not updated. *)
Theorem createCrcVm_requires_finished_setup (W : World) (fuel : nat) (st : State) :
  CrcStatus st = "Need Setup"%string ->
  (setUpCrc_settles W (trace st ++ [EvSetUpCrc false]) = Resolves false ->
   createCrcVm W fuel st = (Raised (not_initialized W), emit (EvSetUpCrc false) st))
  /\
  (forall e,
     setUpCrc_settles W (trace st ++ [EvSetUpCrc false]) = Rejects e ->
     createCrcVm W fuel st = (Raised e, emit (EvSetUpCrc false) st))
  /\
  (forall e,
     setUpCrc_settles W (trace st ++ [EvSetUpCrc false]) = Resolves true ->
     needSetup_settles W (trace st ++ [EvSetUpCrc false; EvNeedSetup]) = Rejects e ->
     createCrcVm W fuel st
       = (Raised e, emit EvNeedSetup (emit (EvSetUpCrc false) st))).
Proof.
  intros Hstatus.
  unfold createCrcVm, initializeCrc, setUpCrc, needSetup. unfold_monad.
  rewrite Hstatus. cbn.
  split; [| split].
  - intros H. rewrite H. reflexivity.
  - intros e H. rewrite H. reflexivity.
  - intros e H1 H2. rewrite H1. cbn. right_nested. rewrite H2. reflexivity.
Qed.

(** X17. The factory's [create] on a cluster that exists (a status other
    than ["No Cluster"] and ["Need Setup"]) is just [presetChanged]; and when
    [createCrcVm] throws, [create] throws the same without calling
    [presetChanged]. *)
Theorem factory_create_rebinds_existing_cluster (W : World) (fuel : nat) (st : State) :
  (CrcStatus st <> "No Cluster"%string ->
   CrcStatus st <> "Need Setup"%string ->
   factory_create W fuel st = presetChanged W st)
  /\
  (forall e st1,
     createCrcVm W fuel st = (Raised e, st1) ->
     factory_create W fuel st = (Raised e, st1)).
Proof.
  split.
  - intros H1 H2.
    apply String.eqb_neq in H1. apply String.eqb_neq in H2.
    assert (H : createCrcVm W fuel st = (Value tt, st)).
    { unfold createCrcVm. unfold_monad. rewrite H1, H2. reflexivity. }
    unfold factory_create, procedure, await. unfold bind at 1. rewrite H.
    destruct (presetChanged W st) as [[[] | e |] st']; reflexivity.
  - intros e st1 H.
    unfold factory_create, procedure, await. unfold bind at 1. rewrite H.
    reflexivity.
Qed.

(** ** Instances of the further properties *)

Lemma startCrc_leaves_setup_flag_clear_witness :
  setupRunning fresh_install = false
  /\ setupRunning (snd (startCrc setup_fails 1 fresh_install)) = false.
Proof.
  split; [reflexivity |].
  exact (startCrc_leaves_setup_flag_clear setup_fails 1 fresh_install eq_refl).
Defined.

Lemma startCrc_result_agrees_with_status_witness :
  startCrc cluster_degraded 1 installed
    = (Value (Boolean false), snd (startCrc cluster_degraded 1 installed))
  /\ (providerStatus (snd (startCrc cluster_degraded 1 installed)) = "error"%string
      \/ providerStatus (snd (startCrc cluster_degraded 1 installed)) = "stopped"%string).
Proof.
  assert (H : startCrc cluster_degraded 1 installed
              = (Value (Boolean false), snd (startCrc cluster_degraded 1 installed)))
    by (vm_compute; reflexivity).
  split; [exact H |].
  exact (proj1 (proj2 (startCrc_result_agrees_with_status cluster_degraded 1 installed
                         _ (Boolean false) H)) eq_refl).
Defined.

Lemma startCrc_retries_need_stored_secret_witness :
  trace (snd (startCrc secret_supplied 2 installed))
    = trace installed ++ trace (snd (startCrc secret_supplied 2 installed))
  /\ count is_start (trace (snd (startCrc secret_supplied 2 installed)))
     <= S (count is_store (trace (snd (startCrc secret_supplied 2 installed)))).
Proof.
  split; [reflexivity |].
  exact (startCrc_retries_need_stored_secret secret_supplied 2 installed
           (trace (snd (startCrc secret_supplied 2 installed))) eq_refl).
Defined.

Lemma startCrc_starts_whatever_setup_returned_witness :
  isNeedSetup fresh_install = true
  /\ setUpCrc_settles setup_unfinished
       (trace fresh_install ++
          [EvLogUsage "crc.start"; EvSetSetupRunning true; EvSetUpCrc true])
     = Resolves false
  /\ exists st',
       startCrc setup_unfinished 1 fresh_install = (Value (Boolean true), st')
       /\ isNeedSetup st' = false
       /\ count is_start (trace st') = S (count is_start (trace fresh_install)).
Proof.
  split; [reflexivity |]. split; [reflexivity |].
  exact (startCrc_starts_whatever_setup_returned setup_unfinished 0 fresh_install
           false false "Running" eq_refl eq_refl eq_refl eq_refl).
Defined.

Lemma start_callbacks_drop_the_result_witness :
  startCrc cluster_degraded 1 (status_set "starting" installed)
    = (Value (Boolean false),
       snd (startCrc cluster_degraded 1 (status_set "starting" installed)))
  /\ providerLifecycle_start cluster_degraded 1 installed
     = (Value tt, snd (startCrc cluster_degraded 1 (status_set "starting" installed))).
Proof.
  assert (H : startCrc cluster_degraded 1 (status_set "starting" installed)
              = (Value (Boolean false),
                 snd (startCrc cluster_degraded 1 (status_set "starting" installed))))
    by (vm_compute; reflexivity).
  split; [exact H |].
  exact (proj1 (proj1 (start_callbacks_drop_the_result cluster_degraded 1 installed)
                  _ _ H)).
Defined.

Lemma parsed_valid_is_valid : valid_pull_secret parsed_valid.
Proof.
  exists (Some (JObject [("registry.io"%string, JObject [("auth"%string, JString "xxx")])])).
  split; [reflexivity |]. split; [reflexivity |]. split; [discriminate |].
  intros a [<- | []].
  exists (Some (JObject [("auth"%string, JString "xxx")])).
  split; [reflexivity |]. left. exists (Some (JString "xxx")).
  split; reflexivity.
Defined.

Lemma askAndStorePullSecret_forwards_valid_secret_witness :
  showInputBox_answer secret_entered (trace (prompted installed)) = Some secret_valid
  /\ secret_valid <> EmptyString
  /\ JSON_parse secret_entered secret_valid = inr parsed_valid
  /\ valid_pull_secret parsed_valid
  /\ exists st2,
       askAndStorePullSecret secret_entered installed = (Value true, st2)
       /\ trace st2 = trace installed ++ [EvShowInputBox; EvPullSecretStore secret_valid].
Proof.
  assert (Hne : secret_valid <> EmptyString) by discriminate.
  assert (Hparse : JSON_parse secret_entered secret_valid = inr parsed_valid)
    by (vm_compute; reflexivity).
  split; [reflexivity |]. split; [exact Hne |]. split; [exact Hparse |].
  split; [exact parsed_valid_is_valid |].
  exact (proj1 (askAndStorePullSecret_forwards_valid_secret secret_entered installed
                  secret_valid parsed_valid eq_refl Hne Hparse parsed_valid_is_valid)
           eq_refl).
Defined.

Lemma askAndStorePullSecret_names_the_problem_witness :
  showInputBox_answer garbage_entered (trace (prompted installed)) = Some "oops"%string
  /\ "oops"%string <> EmptyString
  /\ JSON_parse garbage_entered "oops" = inl JSON.SyntaxError
  /\ askAndStorePullSecret garbage_entered installed
     = (Value false,
        emit (EvShowErrorMessage (Text (not_valid JSON.SyntaxError))) (prompted installed)).
Proof.
  assert (Hne : "oops"%string <> EmptyString) by discriminate.
  assert (Hparse : JSON_parse garbage_entered "oops" = inl JSON.SyntaxError)
    by (vm_compute; reflexivity).
  split; [reflexivity |]. split; [exact Hne |]. split; [exact Hparse |].
  exact (proj1 (askAndStorePullSecret_names_the_problem garbage_entered installed
                  "oops" eq_refl Hne) JSON.SyntaxError Hparse).
Defined.

Lemma presetChanged_binds_cluster_witness :
  crcVersion installed = Some "2.18"%string
  /\ readPreset openshift_preset installed
     = (Value "openshift"%string, emit EvConfigGet installed)
  /\ is_cluster_preset "openshift" = true
  /\ exists st',
       presetChanged openshift_preset installed = (Value tt, st')
       /\ connectionDisposable st' = Some 0
       /\ live st' = [(0, OpenShift_connection)].
Proof.
  split; [reflexivity |]. split; [reflexivity |]. split; [reflexivity |].
  destruct (presetChanged_binds_cluster openshift_preset installed
              (emit EvConfigGet installed) "openshift" "2.18" eq_refl eq_refl eq_refl)
    as [st' [Hrun [Hheld [Hlive _]]]].
  exists st'. split; [exact Hrun |]. split; [exact Hheld |]. exact Hlive.
Defined.

Lemma presetChanged_registers_podman_unheld_witness :
  crcVersion installed = Some "2.18"%string
  /\ readPreset podman_then_openshift installed
     = (Value "podman"%string, emit EvConfigGet installed)
  /\ exists st',
       presetChanged podman_then_openshift installed = (Value tt, st')
       /\ connectionDisposable st' = None
       /\ In (0, Podman_connection) (live st').
Proof.
  split; [reflexivity |]. split; [reflexivity |].
  destruct (presetChanged_registers_podman_unheld podman_then_openshift installed
              (emit EvConfigGet installed) "2.18" eq_refl eq_refl eq_refl)
    as [st' [Hrun [Hheld [Hlive _]]]].
  exists st'. split; [exact Hrun |]. split; [exact Hheld |]. exact Hlive.
Defined.

Lemma presetChanged_disposes_only_held_witness :
  In (0, Podman_connection) (live (snd (presetChanged podman_then_openshift installed)))
  /\ connectionDisposable (snd (presetChanged podman_then_openshift installed)) <> Some 0
  /\ In (0, Podman_connection)
       (live (snd (presetChanged podman_then_openshift
                     (snd (presetChanged podman_then_openshift installed))))).
Proof.
  assert (Hin : In (0, Podman_connection)
                  (live (snd (presetChanged podman_then_openshift installed))))
    by (left; reflexivity).
  assert (Hheld : connectionDisposable (snd (presetChanged podman_then_openshift installed))
                  <> Some 0) by discriminate.
  split; [exact Hin |]. split; [exact Hheld |].
  exact (presetChanged_disposes_only_held podman_then_openshift _ 0 Podman_connection
           Hin Hheld).
Defined.

Lemma presetChanged_unknown_preset_unbinds_witness :
  crcVersion openshift_bound = Some "2.18"%string
  /\ connectionDisposable openshift_bound = Some 0
  /\ live openshift_bound = [(0, OpenShift_connection)]
  /\ readPreset openshift_then_unknown openshift_bound
     = (Value "okd"%string, emit EvConfigGet openshift_bound)
  /\ exists st',
       presetChanged openshift_then_unknown openshift_bound = (Value tt, st')
       /\ connectionDisposable st' = None
       /\ live st' = []
       /\ trace st' =
            trace openshift_bound ++
              [EvConfigGet; EvUpdateVersion "2.18 (OpenShift)"; EvDispose 0].
Proof.
  split; [reflexivity |]. split; [reflexivity |]. split; [reflexivity |].
  split; [reflexivity |].
  assert (H1 : "okd"%string <> "podman"%string) by discriminate.
  assert (H2 : "okd"%string <> "openshift"%string) by discriminate.
  assert (H3 : "okd"%string <> "microshift"%string) by discriminate.
  destruct (presetChanged_unknown_preset_unbinds openshift_then_unknown openshift_bound
              (emit EvConfigGet openshift_bound) "okd" "2.18" eq_refl eq_refl H1 H2 H3)
    as [st' [Hrun [Hheld [Hlive [_ [_ Htrace]]]]]].
  exists st'. split; [exact Hrun |]. split; [exact Hheld |]. split; [exact Hlive |].
  rewrite Htrace. reflexivity.
Defined.

Lemma presetChanged_without_version_throws_witness :
  crcVersion (initial false None) = None
  /\ exists st',
       presetChanged openshift_preset (initial false None)
         = (Raised version_of_undefined, st')
       /\ bindings st' = bindings (initial false None).
Proof.
  split; [reflexivity |].
  destruct (presetChanged_without_version_throws openshift_preset (initial false None)
              eq_refl)
    as [st' [Hrun [Hframe _]]].
  exists st'. split; [exact Hrun | exact Hframe].
Defined.

Lemma createCrcVm_requires_finished_setup_witness :
  CrcStatus need_setup = "Need Setup"%string
  /\ setUpCrc_settles setup_unfinished (trace need_setup ++ [EvSetUpCrc false])
     = Resolves false
  /\ createCrcVm setup_unfinished 1 need_setup
     = (Raised (not_initialized setup_unfinished), emit (EvSetUpCrc false) need_setup).
Proof.
  split; [reflexivity |]. split; [reflexivity |].
  exact (proj1 (createCrcVm_requires_finished_setup setup_unfinished 1 need_setup
                  eq_refl) eq_refl).
Defined.

Lemma factory_create_rebinds_existing_cluster_witness :
  CrcStatus installed <> "No Cluster"%string
  /\ CrcStatus installed <> "Need Setup"%string
  /\ factory_create openshift_preset 1 installed = presetChanged openshift_preset installed.
Proof.
  assert (H1 : CrcStatus installed <> "No Cluster"%string) by discriminate.
  assert (H2 : CrcStatus installed <> "Need Setup"%string) by discriminate.
  split; [exact H1 |]. split; [exact H2 |].
  exact (proj1 (factory_create_rebinds_existing_cluster openshift_preset 1 installed)
           H1 H2).
Defined.

(** ** presetChanged without await *)

(** An awaited [presetChanged] is the query followed by the resumed call. *)
Lemma presetChanged_is_resumed (W : World) (st : State) :
  presetChanged W st =
    presetChanged_resumed W (configGet_settles W (trace st ++ [EvConfigGet]))
      (emit EvConfigGet st).
Proof.
  unfold presetChanged, presetChanged_resumed, readPreset, readPreset_resumed,
    commander_configGet, settle, procedure, function, await, try_catch, ask.
  unfold bind at 1. unfold bind at 4. unfold bind at 1. unfold bind at 3.
  cbn [trace emit].
  destruct (configGet_settles W (trace st ++ [EvConfigGet])); reflexivity.
Qed.

(** With no other call in flight, an un-awaited [presetChanged] that has
    resumed leaves the state an awaited one leaves. *)
Lemma presetChanged_unawaited_resumes (W : World) (st : State) :
  pending st = [] ->
  resume_all W (snd (presetChanged_unawaited (R:=unit) W st)) = snd (presetChanged W st).
Proof.
  intros Hpending. rewrite presetChanged_is_resumed.
  unfold presetChanged_unawaited, resume_all. cbn.
  rewrite Hpending. cbn. destruct st. cbn in *. subst. reflexivity.
Qed.
